(** * Wear-Fit-Check studio: the outfit engine of [src/App.tsx] and the
    response handling of [src/services/geminiService.ts]

    The React component [App] is embedded as a record of its [useState]
    cells together with one function per event handler.  A handler that
    awaits the generation service is first run to completion in one
    step: the reply the service would give is an argument of the
    handler, and the handler returns, next to the new state, the list of
    service calls it issued.  Values captured by a handler's closure are
    read from the state the handler was invoked on; functional updates
    ([setX(prev => ...)]) are applied to the running state.  The two
    halves of such a handler, before and after its [await], are
    definitions of their own, and the sessions of the part on handlers
    that overlap run them apart: there other events are handled while a
    handler waits. *)

From stdpp Require Import base list strings pretty.
From Stdlib Require Import Ascii Lia.

Local Open Scope string_scope.
Local Open Scope list_scope.
Local Open Scope nat_scope.

(** ** JavaScript values used by the code *)

(** A JavaScript string is represented by the bytes of its UTF-8
    encoding, which is also how the literals of the source files are
    read here. *)

(** [Boolean(s)] for a string: only the empty string is falsy. *)
Definition truthy (s : string) : bool := negb (String.eqb s "").

(** [Boolean(v)] for [string | null | undefined]. *)
Definition truthyOpt (v : option string) : bool :=
  match v with
  | Some s => truthy s
  | None => false
  end.

(** A value spliced into a template literal: [undefined] prints as the
    word itself. *)
Definition templateArg (v : option string) : string :=
  match v with
  | Some s => s
  | None => "undefined"
  end.

(** [hay.includes(needle)] *)
Fixpoint includes (needle hay : string) : bool :=
  String.prefix needle hay ||
  match hay with
  | EmptyString => false
  | String _ rest => includes needle rest
  end.

Definition bytes (codes : list nat) : string :=
  String.string_of_list_ascii (map Ascii.ascii_of_nat codes).

(** The code points [String.prototype.trim] removes (ECMAScript
    WhiteSpace and LineTerminator), each as its UTF-8 bytes: U+0009 to
    U+000D, U+0020, U+00A0, U+1680, U+2000 to U+200A, U+2028, U+2029,
    U+202F, U+205F, U+3000 and U+FEFF. *)
Definition whiteSpace : list string :=
  map bytes
    [ [9]; [10]; [11]; [12]; [13]; [32]; [194; 160]; [225; 154; 128];
      [226; 128; 128]; [226; 128; 129]; [226; 128; 130]; [226; 128; 131];
      [226; 128; 132]; [226; 128; 133]; [226; 128; 134]; [226; 128; 135];
      [226; 128; 136]; [226; 128; 137]; [226; 128; 138];
      [226; 128; 168]; [226; 128; 169]; [226; 128; 175]; [226; 129; 159];
      [227; 128; 128]; [239; 187; 191] ].

(** [stripPrefix p s] is the rest of [s] after its prefix [p]. *)
Fixpoint stripPrefix (p s : string) : option string :=
  match p, s with
  | EmptyString, _ => Some s
  | String a p', String b s' =>
      if Ascii.eqb a b then stripPrefix p' s' else None
  | String _ _, EmptyString => None
  end.

(** Removes one leading character out of [ws], if there is one. *)
Fixpoint dropOne (ws : list string) (s : string) : option string :=
  match ws with
  | [] => None
  | w :: ws' =>
      match stripPrefix w s with
      | Some rest => Some rest
      | None => dropOne ws' s
      end
  end.

Fixpoint dropLeading (ws : list string) (fuel : nat) (s : string) : string :=
  match fuel with
  | O => s
  | S fuel' =>
      match dropOne ws s with
      | Some rest => dropLeading ws fuel' rest
      | None => s
      end
  end.

Definition trimStart (s : string) : string :=
  dropLeading whiteSpace (String.length s) s.

(** Trailing white space is leading white space of the reversed string. *)
Definition trimEnd (s : string) : string :=
  String.rev (dropLeading (map String.rev whiteSpace) (String.length s) (String.rev s)).

(** [s.trim()] *)
Definition trim (s : string) : string := trimEnd (trimStart s).

(** The settled value of an awaited promise, or the outcome of a call
    that may throw: [Throw m] stands for [throw new Error(m)]. *)
Inductive Completion : Type :=
  | Return (value : string)
  | Throw (message : string).

(** ** [services/geminiService.ts] *)

(** The parts of [GenerateContentResponse] (from [@google/genai]) that
    [handleApiResponse] reads.  Optional properties are options; [text]
    is the value of the response's text accessor; a part without
    [inlineData] is a part of another kind, such as a text part. *)
Record Blob := { mimeType : option string; data : option string }.
Record Part := { inlineData : option Blob }.
Record Content := { parts : option (list Part) }.
Record Candidate := { content : option Content; finishReason : option string }.
Record GenerateContentResponse :=
  { candidates : option (list Candidate); text : option string }.

(** [for (const part of candidate.content?.parts ?? [])] *)
Definition partsOf (candidate : Candidate) : list Part :=
  match content candidate with
  | Some c => default [] (parts c)
  | None => []
  end.

(** The inner loop of [handleApiResponse]: the first part that has
    [inlineData]. *)
Fixpoint firstInlinePart (ps : list Part) : option Blob :=
  match ps with
  | [] => None
  | p :: ps' =>
      match inlineData p with
      | Some blob => Some blob
      | None => firstInlinePart ps'
      end
  end.

(** The outer loop. *)
Fixpoint firstInlineData (cs : list Candidate) : option Blob :=
  match cs with
  | [] => None
  | c :: cs' =>
      match firstInlinePart (partsOf c) with
      | Some blob => Some blob
      | None => firstInlineData cs'
      end
  end.

Definition dataUrl (blob : Blob) : string :=
  "data:" +:+ templateArg (mimeType blob) +:+ ";base64," +:+ templateArg (data blob).

(** [response.candidates?.[0]?.finishReason] *)
Definition firstFinishReason (response : GenerateContentResponse) : option string :=
  match candidates response with
  | Some (c :: _) => finishReason c
  | _ => None
  end.

Definition noImageMessage : string := "AI did not return an image.".

Definition handleApiResponse (response : GenerateContentResponse) : Completion :=
  match firstInlineData (default [] (candidates response)) with
  | Some blob => Return (dataUrl blob)
  | None =>
      let finishReason := firstFinishReason response in
      if truthyOpt finishReason && negb (String.eqb (templateArg finishReason) "STOP")
      then Throw ("Image generation stopped. Reason: " +:+ templateArg finishReason)
      else
        let textFeedback := trim <$> text response in
        Throw (if truthyOpt textFeedback then templateArg textFeedback else noImageMessage)
  end.


(** What the generation service answers to an image request: the call
    is rejected (the data URL of the input does not parse, the file
    cannot be read, the transport or the credential fails), or the
    model responds. *)
Inductive ApiReply : Type :=
  | Rejected (message : string)
  | Responded (response : GenerateContentResponse).

(** The four image operations end in [return handleApiResponse(response)];
    the two the outfit engine calls are named here.  Their arguments are
    kept in the list of calls a handler returns. *)
Definition imageOperation (reply : ApiReply) : Completion :=
  match reply with
  | Rejected message => Throw message
  | Responded response => handleApiResponse response
  end.

Definition generateVirtualTryOnImage (reply : ApiReply) : Completion :=
  imageOperation reply.

Definition generatePoseVariation (reply : ApiReply) : Completion :=
  imageOperation reply.

(** ** The data of [App.tsx] *)

Inductive Category : Type := clothing | accessory.

Record WardrobeItem := {
  id : string;
  name : string;
  url : string;
  category : Category
}.

(** A JavaScript object with string values, as the list of its own
    properties in insertion order (none of the keys used is an integer
    index, so insertion order is enumeration order; none is the name of
    a property of [Object.prototype] either). *)
Definition JsObject : Type := list (string * string).

(** [o[k]] *)
Fixpoint objectGet (o : JsObject) (k : string) : option string :=
  match o with
  | [] => None
  | (k', v) :: o' => if String.eqb k' k then Some v else objectGet o' k
  end.

(** [{ ...o, [k]: v }]: an existing key keeps its place. *)
Fixpoint objectSet (o : JsObject) (k v : string) : JsObject :=
  match o with
  | [] => [(k, v)]
  | (k', v') :: o' =>
      if String.eqb k' k then (k', v) :: o' else (k', v') :: objectSet o' k v
  end.

Definition objectValues (o : JsObject) : list string := map snd o.
Definition objectKeys (o : JsObject) : list string := map fst o.

Record OutfitLayer := {
  garment : option WardrobeItem;
  poseImages : JsObject
}.

Module SavedOutfit.
Record t := {
  id : string;
  imageUrl : string;
  items : list WardrobeItem;
  timestamp : nat
}.
End SavedOutfit.

(** The browser's [File]: name, MIME type and contents. *)
Record File := { fileName : string; fileType : string; fileContents : string }.

Inductive VideoModelType : Type := veo_fast | veo_pro.

Definition modelName (model : VideoModelType) : string :=
  match model with
  | veo_fast => "veo-3.1-fast-generate-preview"
  | veo_pro => "veo-3.1-generate-preview"
  end.

Definition POSE_INSTRUCTIONS : list string :=
  [ "ยืนตัวตรง มือวางข้างลำตัว";
    "หันข้างเล็กน้อย 45 องศา";
    "หันข้างเต็มตัว";
    "กระโดดในอากาศ ท่าแอคชั่น";
    "กำลังเดินเข้าหาหน้าจอ";
    "พิงกำแพงแบบเท่ๆ" ].

(** [POSE_INSTRUCTIONS[i]] used as a property key or in a template:
    outside the array it is [undefined], which is coerced to the string
    ["undefined"]. *)
Definition poseInstructionAt (i : nat) : string :=
  templateArg (POSE_INSTRUCTIONS !! i).

Definition defaultWardrobe : list WardrobeItem :=
  [ {| id := "gemini-sweat"; name := "เสื้อสเวตเตอร์ Gemini";
       url := "https://raw.githubusercontent.com/ammaarreshi/app-images/refs/heads/main/gemini-sweat-2.png";
       category := clothing |};
    {| id := "gemini-tee"; name := "เสื้อยืด Gemini";
       url := "https://raw.githubusercontent.com/ammaarreshi/app-images/refs/heads/main/Gemini-tee.png";
       category := clothing |};
    {| id := "black-cap"; name := "หมวกแก๊ปสีดำ";
       url := "https://images.unsplash.com/photo-1588850561407-ed78c282e1c7?q=80&w=400&auto=format&fit=crop";
       category := accessory |};
    {| id := "sunglasses"; name := "แว่นกันแดดทรงเท่";
       url := "https://images.unsplash.com/photo-1572635196237-14b3f281503f?q=80&w=400&auto=format&fit=crop";
       category := accessory |};
    {| id := "leather-bag"; name := "กระเป๋าถือหนัง";
       url := "https://images.unsplash.com/photo-1584917865442-de89df76afd3?q=80&w=400&auto=format&fit=crop";
       category := accessory |} ].

(** The [useState] cells of [App]. *)
Record AppState := {
  modelImageUrl : option string;
  outfitHistory : list OutfitLayer;
  currentOutfitIndex : nat;
  isLoading : bool;
  loadingMessage : string;
  error : option string;
  currentPoseIndex : nat;
  isSheetCollapsed : bool;
  wardrobe : list WardrobeItem;
  videoUrls : list string;
  isVideoLoading : bool;
  savedOutfits : list SavedOutfit.t
}.

(** The state at mount: the arguments of the [useState] calls. *)
Definition initialState : AppState :=
  {| modelImageUrl := None; outfitHistory := []; currentOutfitIndex := 0;
     isLoading := false; loadingMessage := ""; error := None;
     currentPoseIndex := 0; isSheetCollapsed := false;
     wardrobe := defaultWardrobe; videoUrls := []; isVideoLoading := false;
     savedOutfits := [] |}.

(** *** State setters

    [setX f] is React's [setX]: called with an updater it applies [f] to
    the current value of the cell; [setX (to v)] is the call [setX(v)]. *)

Definition to {A : Type} (v : A) : A -> A := fun _ => v.

Notation "s |> f" := (f s) (at level 45, left associativity, only parsing).

Definition setModelImageUrl (f : option string -> option string) (s : AppState) : AppState :=
  {| modelImageUrl := f (modelImageUrl s); outfitHistory := outfitHistory s;
     currentOutfitIndex := currentOutfitIndex s; isLoading := isLoading s;
     loadingMessage := loadingMessage s; error := error s;
     currentPoseIndex := currentPoseIndex s; isSheetCollapsed := isSheetCollapsed s;
     wardrobe := wardrobe s; videoUrls := videoUrls s;
     isVideoLoading := isVideoLoading s; savedOutfits := savedOutfits s |}.

Definition setOutfitHistory (f : list OutfitLayer -> list OutfitLayer) (s : AppState) : AppState :=
  {| modelImageUrl := modelImageUrl s; outfitHistory := f (outfitHistory s);
     currentOutfitIndex := currentOutfitIndex s; isLoading := isLoading s;
     loadingMessage := loadingMessage s; error := error s;
     currentPoseIndex := currentPoseIndex s; isSheetCollapsed := isSheetCollapsed s;
     wardrobe := wardrobe s; videoUrls := videoUrls s;
     isVideoLoading := isVideoLoading s; savedOutfits := savedOutfits s |}.

Definition setCurrentOutfitIndex (f : nat -> nat) (s : AppState) : AppState :=
  {| modelImageUrl := modelImageUrl s; outfitHistory := outfitHistory s;
     currentOutfitIndex := f (currentOutfitIndex s); isLoading := isLoading s;
     loadingMessage := loadingMessage s; error := error s;
     currentPoseIndex := currentPoseIndex s; isSheetCollapsed := isSheetCollapsed s;
     wardrobe := wardrobe s; videoUrls := videoUrls s;
     isVideoLoading := isVideoLoading s; savedOutfits := savedOutfits s |}.

Definition setIsLoading (f : bool -> bool) (s : AppState) : AppState :=
  {| modelImageUrl := modelImageUrl s; outfitHistory := outfitHistory s;
     currentOutfitIndex := currentOutfitIndex s; isLoading := f (isLoading s);
     loadingMessage := loadingMessage s; error := error s;
     currentPoseIndex := currentPoseIndex s; isSheetCollapsed := isSheetCollapsed s;
     wardrobe := wardrobe s; videoUrls := videoUrls s;
     isVideoLoading := isVideoLoading s; savedOutfits := savedOutfits s |}.

Definition setLoadingMessage (f : string -> string) (s : AppState) : AppState :=
  {| modelImageUrl := modelImageUrl s; outfitHistory := outfitHistory s;
     currentOutfitIndex := currentOutfitIndex s; isLoading := isLoading s;
     loadingMessage := f (loadingMessage s); error := error s;
     currentPoseIndex := currentPoseIndex s; isSheetCollapsed := isSheetCollapsed s;
     wardrobe := wardrobe s; videoUrls := videoUrls s;
     isVideoLoading := isVideoLoading s; savedOutfits := savedOutfits s |}.

Definition setError (f : option string -> option string) (s : AppState) : AppState :=
  {| modelImageUrl := modelImageUrl s; outfitHistory := outfitHistory s;
     currentOutfitIndex := currentOutfitIndex s; isLoading := isLoading s;
     loadingMessage := loadingMessage s; error := f (error s);
     currentPoseIndex := currentPoseIndex s; isSheetCollapsed := isSheetCollapsed s;
     wardrobe := wardrobe s; videoUrls := videoUrls s;
     isVideoLoading := isVideoLoading s; savedOutfits := savedOutfits s |}.

Definition setCurrentPoseIndex (f : nat -> nat) (s : AppState) : AppState :=
  {| modelImageUrl := modelImageUrl s; outfitHistory := outfitHistory s;
     currentOutfitIndex := currentOutfitIndex s; isLoading := isLoading s;
     loadingMessage := loadingMessage s; error := error s;
     currentPoseIndex := f (currentPoseIndex s); isSheetCollapsed := isSheetCollapsed s;
     wardrobe := wardrobe s; videoUrls := videoUrls s;
     isVideoLoading := isVideoLoading s; savedOutfits := savedOutfits s |}.

Definition setIsSheetCollapsed (f : bool -> bool) (s : AppState) : AppState :=
  {| modelImageUrl := modelImageUrl s; outfitHistory := outfitHistory s;
     currentOutfitIndex := currentOutfitIndex s; isLoading := isLoading s;
     loadingMessage := loadingMessage s; error := error s;
     currentPoseIndex := currentPoseIndex s; isSheetCollapsed := f (isSheetCollapsed s);
     wardrobe := wardrobe s; videoUrls := videoUrls s;
     isVideoLoading := isVideoLoading s; savedOutfits := savedOutfits s |}.

Definition setWardrobe (f : list WardrobeItem -> list WardrobeItem) (s : AppState) : AppState :=
  {| modelImageUrl := modelImageUrl s; outfitHistory := outfitHistory s;
     currentOutfitIndex := currentOutfitIndex s; isLoading := isLoading s;
     loadingMessage := loadingMessage s; error := error s;
     currentPoseIndex := currentPoseIndex s; isSheetCollapsed := isSheetCollapsed s;
     wardrobe := f (wardrobe s); videoUrls := videoUrls s;
     isVideoLoading := isVideoLoading s; savedOutfits := savedOutfits s |}.

Definition setVideoUrls (f : list string -> list string) (s : AppState) : AppState :=
  {| modelImageUrl := modelImageUrl s; outfitHistory := outfitHistory s;
     currentOutfitIndex := currentOutfitIndex s; isLoading := isLoading s;
     loadingMessage := loadingMessage s; error := error s;
     currentPoseIndex := currentPoseIndex s; isSheetCollapsed := isSheetCollapsed s;
     wardrobe := wardrobe s; videoUrls := f (videoUrls s);
     isVideoLoading := isVideoLoading s; savedOutfits := savedOutfits s |}.

Definition setIsVideoLoading (f : bool -> bool) (s : AppState) : AppState :=
  {| modelImageUrl := modelImageUrl s; outfitHistory := outfitHistory s;
     currentOutfitIndex := currentOutfitIndex s; isLoading := isLoading s;
     loadingMessage := loadingMessage s; error := error s;
     currentPoseIndex := currentPoseIndex s; isSheetCollapsed := isSheetCollapsed s;
     wardrobe := wardrobe s; videoUrls := videoUrls s;
     isVideoLoading := f (isVideoLoading s); savedOutfits := savedOutfits s |}.

Definition setSavedOutfits (f : list SavedOutfit.t -> list SavedOutfit.t) (s : AppState) : AppState :=
  {| modelImageUrl := modelImageUrl s; outfitHistory := outfitHistory s;
     currentOutfitIndex := currentOutfitIndex s; isLoading := isLoading s;
     loadingMessage := loadingMessage s; error := error s;
     currentPoseIndex := currentPoseIndex s; isSheetCollapsed := isSheetCollapsed s;
     wardrobe := wardrobe s; videoUrls := videoUrls s;
     isVideoLoading := isVideoLoading s; savedOutfits := f (savedOutfits s) |}.

(** *** Derived values (the [useMemo] cells) *)

Definition activeOutfitLayers (s : AppState) : list OutfitLayer :=
  take (currentOutfitIndex s + 1) (outfitHistory s).

(** [layer.garment?.id] *)
Definition garmentId (layer : OutfitLayer) : option string :=
  id <$> garment layer.

(** [.map(layer => layer.garment?.id).filter(Boolean)] *)
Definition activeGarmentIds (s : AppState) : list string :=
  omap (fun layer =>
          match garmentId layer with
          | Some i => if truthy i then Some i else None
          | None => None
          end)
       (activeOutfitLayers s).

Definition displayImageUrl (s : AppState) : option string :=
  match outfitHistory s with
  | [] => modelImageUrl s
  | _ =>
      match outfitHistory s !! currentOutfitIndex s with
      | None => modelImageUrl s
      | Some currentLayer =>
          let poseInstruction := poseInstructionAt (currentPoseIndex s) in
          match objectGet (poseImages currentLayer) poseInstruction with
          | Some image => Some image
          | None => head (objectValues (poseImages currentLayer))
          end
      end
  end.

Definition availablePoseKeys (s : AppState) : list string :=
  match outfitHistory s with
  | [] => []
  | _ =>
      match outfitHistory s !! currentOutfitIndex s with
      | Some currentLayer => objectKeys (poseImages currentLayer)
      | None => []
      end
  end.

(** *** Calls that leave the component *)

Inductive ServiceCall : Type :=
  | callVirtualTryOn (modelImage : string) (itemImage : File)
  | callPoseVariation (tryOnImageUrl poseInstruction : string)
  | callGenerateVideo (imageSource : string) (model : VideoModelType)
  | callHasSelectedApiKey
  | callOpenSelectKey.

(** [arr.slice(-n)] *)
Definition sliceLast {A : Type} (n : nat) (l : list A) : list A :=
  drop (length l - n) l.

(** [nextLayer && nextLayer.garment?.id === garmentInfo.id] *)
Definition sameGarment (nextLayer : option OutfitLayer) (garmentInfo : WardrobeItem) : bool :=
  match nextLayer with
  | Some layer =>
      match garmentId layer with
      | Some i => String.eqb i (id garmentInfo)
      | None => false
      end
  | None => false
  end.

(** [prev.find(item => item.id === garmentInfo.id)], as a condition *)
Definition inWardrobe (prev : list WardrobeItem) (garmentInfo : WardrobeItem) : bool :=
  existsb (fun item => String.eqb (id item) (id garmentInfo)) prev.

Section Handlers.

(** [getFriendlyErrorMessage] of [lib/utils], applied to the message of
    the error caught and to the handler's own context text. *)
Variable getFriendlyErrorMessage : string -> string -> string.

Definition handleModelFinalized (url : string) (s : AppState) : AppState :=
  s |> setModelImageUrl (to (Some url))
    |> setOutfitHistory
         (to [ {| garment := None;
                  poseImages := [(poseInstructionAt 0, url)] |} ])
    |> setCurrentOutfitIndex (to 0).

Definition handleStartOver (s : AppState) : AppState :=
  s |> setModelImageUrl (to None)
    |> setOutfitHistory (to [])
    |> setCurrentOutfitIndex (to 0)
    |> setIsLoading (to false)
    |> setLoadingMessage (to "")
    |> setError (to None)
    |> setCurrentPoseIndex (to 0)
    |> setIsSheetCollapsed (to false)
    |> setWardrobe (to defaultWardrobe)
    |> setVideoUrls (to []).

(** An asynchronous handler is split at its [await].  The part before
    it gives the state [Started]; the part after it, [Settled], is the
    continuation that runs when the promise settles: it reads the values
    captured by the closure from [closure], the state the handler was
    called on, and applies its updates to [running], the state of that
    moment.  The handler functions run both parts in one step. *)

Definition garmentSelectStarted (garmentInfo : WardrobeItem) (s : AppState) : AppState :=
  let actionText :=
    match category garmentInfo with
    | accessory => "เพิ่มเครื่องประดับ"
    | clothing => "ลองชุด"
    end in
  s |> setError (to None)
    |> setIsLoading (to true)
    |> setLoadingMessage
         (to ("กำลัง" +:+ actionText +:+ " " +:+ name garmentInfo +:+ "...")).

Definition garmentSelectSettled (closure : AppState) (garmentInfo : WardrobeItem)
    (outcome : Completion) (running : AppState) : AppState :=
  match outcome with
  | Return newImageUrl =>
      let currentPoseInstruction := poseInstructionAt (currentPoseIndex closure) in
      let newLayer :=
        {| garment := Some garmentInfo;
           poseImages := [(currentPoseInstruction, newImageUrl)] |} in
      running
        |> setOutfitHistory
             (fun prevHistory =>
                let newHistory := take (currentOutfitIndex closure + 1) prevHistory in
                newHistory ++ [newLayer])
        |> setCurrentOutfitIndex (fun prev => prev + 1)
        |> setWardrobe
             (fun prev =>
                if inWardrobe prev garmentInfo then prev
                else prev ++ [garmentInfo])
        |> setVideoUrls (to [])
  | Throw err =>
      running
        |> setError (to (Some (getFriendlyErrorMessage err "ไม่สามารถใช้ไอเทมนี้ได้")))
  end
  |> setIsLoading (to false)
  |> setLoadingMessage (to "").

(** [reply] is what the service answers if the handler reaches the
    request. *)
Definition handleGarmentSelect (reply : ApiReply)
    (garmentFile : File) (garmentInfo : WardrobeItem)
    (s : AppState) : AppState * list ServiceCall :=
  match displayImageUrl s with
  | None => (s, [])
  | Some shown =>
      if negb (truthy shown) || isLoading s then (s, [])
      else
        let nextLayer := outfitHistory s !! (currentOutfitIndex s + 1) in
        if sameGarment nextLayer garmentInfo then
          (s |> setCurrentOutfitIndex (fun prev => prev + 1)
             |> setCurrentPoseIndex (to 0),
           [])
        else
          (garmentSelectStarted garmentInfo s
             |> garmentSelectSettled s garmentInfo (generateVirtualTryOnImage reply),
           [callVirtualTryOn shown garmentFile])
  end.

Definition handleRemoveLastGarment (s : AppState) : AppState :=
  if (0 <? currentOutfitIndex s)%nat then
    s |> setCurrentOutfitIndex (fun prevIndex => prevIndex - 1)
      |> setCurrentPoseIndex (to 0)
      |> setVideoUrls (to [])
  else s.

Definition poseSelectStarted (newIndex : nat) (s : AppState) : AppState :=
  s |> setError (to None)
    |> setIsLoading (to true)
    |> setLoadingMessage (to "กำลังเปลี่ยนท่าทาง...")
    |> setCurrentPoseIndex (to newIndex).

(** In the updater of the history, the index is that of the layer the
    closure read.  [alter] is the JavaScript update when the running
    history has a layer at that index, as it has whenever the closure
    is the running state: the handler has read that layer before its
    request.  A continuation that finds the index past the end of the
    running history makes JavaScript extend the array with a layer
    without [garment] property, a value [OutfitLayer] does not have; no
    statement uses this definition there, and the sessions of
    overlapping handlers stop at such a step. *)
Definition poseSelectSettled (closure : AppState) (newIndex : nat)
    (outcome : Completion) (running : AppState) : AppState :=
  let poseInstruction := poseInstructionAt newIndex in
  let prevPoseIndex := currentPoseIndex closure in
  match outcome with
  | Return newImageUrl =>
      running
        |> setOutfitHistory
             (fun prevHistory =>
                alter
                  (fun updatedLayer =>
                     {| garment := garment updatedLayer;
                        poseImages :=
                          objectSet (poseImages updatedLayer)
                                    poseInstruction newImageUrl |})
                  (currentOutfitIndex closure) prevHistory)
        |> setVideoUrls (to [])
  | Throw err =>
      running
        |> setError (to (Some (getFriendlyErrorMessage err "ไม่สามารถเปลี่ยนท่าทางได้")))
        |> setCurrentPoseIndex (to prevPoseIndex)
  end
  |> setIsLoading (to false)
  |> setLoadingMessage (to "").

Definition handlePoseSelect (reply : ApiReply) (newIndex : nat)
    (s : AppState) : AppState * list ServiceCall :=
  if isLoading s || (length (outfitHistory s) =? 0)%nat || (newIndex =? currentPoseIndex s)%nat
  then (s, [])
  else
    let poseInstruction := poseInstructionAt newIndex in
    match outfitHistory s !! currentOutfitIndex s with
    | None =>
        (* reading [poseImages] of [undefined] throws: the promise of
           the handler is rejected before any setter has run *)
        (s, [])
    | Some currentLayer =>
        if truthyOpt (objectGet (poseImages currentLayer) poseInstruction) then
          (s |> setCurrentPoseIndex (to newIndex), [])
        else
          match head (objectValues (poseImages currentLayer)) with
          | None => (s, [])
          | Some baseImageForPoseChange =>
              if negb (truthy baseImageForPoseChange) then (s, [])
              else
                (poseSelectStarted newIndex s
                   |> poseSelectSettled s newIndex (generatePoseVariation reply),
                 [callPoseVariation baseImageForPoseChange poseInstruction])
          end
    end.

Definition generateVideoStarted (model : VideoModelType) (s : AppState) : AppState :=
  s |> setIsVideoLoading (to true)
    |> setError (to None)
    |> setLoadingMessage
         (to ("กำลังสร้างวิดีโอด้วย " +:+
              match model with
              | veo_pro => "Veo Pro"
              | veo_fast => "Veo Fast"
              end +:+ "...")).

(** The continuation, with the calls it makes besides. *)
Definition generateVideoSettled (outcome : Completion)
    (running : AppState) : AppState * list ServiceCall :=
  let '(settled, recovery) :=
    match outcome with
    | Return videoUrl =>
        (running |> setVideoUrls (fun prev => sliceLast 2 (prev ++ [videoUrl])), [])
    | Throw errorMsg =>
        (running
           |> setError
                (to (Some (getFriendlyErrorMessage errorMsg "ไม่สามารถสร้างวิดีโอได้"))),
         if includes "Requested entity was not found" errorMsg
         then [callOpenSelectKey] else [])
    end in
  (settled |> setIsVideoLoading (to false) |> setLoadingMessage (to ""), recovery).

(** [hasKey] is the answer of [aistudio.hasSelectedApiKey()];
    [outcome] is the settled value of [generateVideo], which polls the
    video operation until it is done and downloads the clip. *)
Definition handleGenerateVideo (hasKey : bool) (outcome : Completion)
    (model : VideoModelType) (s : AppState) : AppState * list ServiceCall :=
  match displayImageUrl s with
  | None => (s, [])
  | Some shown =>
      if negb (truthy shown) || isVideoLoading s then (s, [])
      else
        let keyCalls :=
          callHasSelectedApiKey :: (if hasKey then [] else [callOpenSelectKey]) in
        let '(settled, recovery) :=
          generateVideoSettled outcome (generateVideoStarted model s) in
        (settled, keyCalls ++ [callGenerateVideo shown model] ++ recovery)
  end.


(** *** Runs of the component *)

Inductive Event : Type :=
  | ModelFinalized (url : string)
  | GarmentSelect (reply : ApiReply) (garmentFile : File) (garmentInfo : WardrobeItem)
  | RemoveLastGarment
  | PoseSelect (reply : ApiReply) (newIndex : nat)
  | GenerateVideo (hasKey : bool) (outcome : Completion) (model : VideoModelType).

Definition step (e : Event) (s : AppState) : AppState :=
  match e with
  | ModelFinalized url => handleModelFinalized url s
  | GarmentSelect reply garmentFile garmentInfo =>
      fst (handleGarmentSelect reply garmentFile garmentInfo s)
  | RemoveLastGarment => handleRemoveLastGarment s
  | PoseSelect reply newIndex => fst (handlePoseSelect reply newIndex s)
  | GenerateVideo hasKey outcome model =>
      fst (handleGenerateVideo hasKey outcome model s)
  end.

(** The state after the events of [es], oldest first, when the
    handlers run one after the other: each has run to its end, its
    promise settled, before the next is called.  Executions in which a
    handler is called while another is waiting are those of [perform],
    further down. *)
Definition run (es : list Event) (s : AppState) : AppState :=
  foldl (fun acc e => step e acc) s es.

End Handlers.

(** ** Predicates used in the statements *)

(** Some part of some candidate of the response carries [blob] as its
    inline data. *)
Definition carriesInline (response : GenerateContentResponse) (blob : Blob) : Prop :=
  ∃ c p, c ∈ default [] (candidates response) ∧ p ∈ partsOf c ∧ inlineData p = Some blob.

(** [blob] is the inline data of the first part that has some, in the
    order of the candidates and, within a candidate, of its parts: no
    part of an earlier candidate and no earlier part of the same
    candidate carries inline data. *)
Definition firstInline (response : GenerateContentResponse) (blob : Blob) : Prop :=
  ∃ earlier c later before p after,
    default [] (candidates response) = earlier ++ c :: later
    ∧ partsOf c = before ++ p :: after
    ∧ inlineData p = Some blob
    ∧ (∀ c' p', c' ∈ earlier → p' ∈ partsOf c' → inlineData p' = None)
    ∧ (∀ p', p' ∈ before → inlineData p' = None).

(** The cursor points into the history. *)
Definition cursorInRange (s : AppState) : Prop :=
  currentOutfitIndex s < length (outfitHistory s).

(** The history has a first layer, and its garment is [null]. *)
Definition baseFirst (s : AppState) : Prop :=
  garment <$> outfitHistory s !! 0 = Some None.

(** A layer has at least one pose image and none of them is empty. *)
Definition layerHasImages (layer : OutfitLayer) : Prop :=
  poseImages layer ≠ [] ∧ Forall (fun entry => truthy entry.2 = true) (poseImages layer).

Definition imagesPresent (s : AppState) : Prop :=
  Forall layerHasImages (outfitHistory s).

(** The events the rendered screens can send: the start screen shows
    its button to the dressing room only for a truthy
    [generatedModelUrl]. *)
Definition offered (e : Event) : Prop :=
  match e with
  | ModelFinalized url => truthy url = true
  | _ => True
  end.

(** ** Sample data for the worked examples *)

(** An instance of [getFriendlyErrorMessage] to run the handlers with:
    the context text followed by the message of the error. *)
Definition sampleFriendly (err context : string) : string :=
  context +:+ ": " +:+ err.

(** A response whose only part is a PNG with base64 payload [payload]. *)
Definition pngResponse (payload : string) : GenerateContentResponse :=
  {| candidates :=
       Some [ {| content :=
                   Some {| parts :=
                             Some [ {| inlineData :=
                                         Some {| mimeType := Some "image/png";
                                                 data := Some payload |} |} ] |};
                 finishReason := Some "STOP" |} ];
     text := None |}.

Definition pngReply (payload : string) : ApiReply := Responded (pngResponse payload).

Definition modelPhoto : string := "data:image/png;base64,M0".

Definition tee : WardrobeItem :=
  {| id := "gemini-tee"; name := "เสื้อยืด Gemini";
     url := "https://raw.githubusercontent.com/ammaarreshi/app-images/refs/heads/main/Gemini-tee.png";
     category := clothing |}.

Definition cap : WardrobeItem :=
  {| id := "black-cap"; name := "หมวกแก๊ปสีดำ";
     url := "https://images.unsplash.com/photo-1588850561407-ed78c282e1c7?q=80&w=400&auto=format&fit=crop";
     category := accessory |}.

Definition teeFile : File :=
  {| fileName := "เสื้อยืด Gemini"; fileType := "image/png"; fileContents := "tee-pixels" |}.

Definition capFile : File :=
  {| fileName := "หมวกแก๊ปสีดำ"; fileType := "image/png"; fileContents := "cap-pixels" |}.

(** The model photo finalized on the start screen. *)
Definition bareModel : AppState := handleModelFinalized modelPhoto initialState.

(** The model photo finalized, then the tee tried on. *)
Definition wearingTee : AppState :=
  run sampleFriendly
    [ModelFinalized modelPhoto; GarmentSelect (pngReply "I1") teeFile tee]
    initialState.

(** A response stopped by the safety filter, and two that only talk. *)
Definition blockedResponse : GenerateContentResponse :=
  {| candidates := Some [ {| content := None; finishReason := Some "SAFETY" |} ];
     text := None |}.

Definition talkingResponse : GenerateContentResponse :=
  {| candidates :=
       Some [ {| content := Some {| parts := Some [ {| inlineData := None |} ] |};
                 finishReason := Some "STOP" |} ];
     text := Some "  I cannot edit this photo. " |}.

Definition blankResponse : GenerateContentResponse :=
  {| candidates :=
       Some [ {| content := Some {| parts := Some [ {| inlineData := None |} ] |};
                 finishReason := Some "STOP" |} ];
     text := Some " " |}.

(** A response whose first candidate only talks and whose second
    candidate has a text part followed by two images. *)
Definition twoImagesResponse : GenerateContentResponse :=
  {| candidates :=
       Some [ {| content := Some {| parts := Some [ {| inlineData := None |} ] |};
                 finishReason := Some "STOP" |};
              {| content :=
                   Some {| parts :=
                             Some [ {| inlineData := None |};
                                    {| inlineData :=
                                         Some {| mimeType := Some "image/png";
                                                 data := Some "FRONT" |} |};
                                    {| inlineData :=
                                         Some {| mimeType := Some "image/jpeg";
                                                 data := Some "BACK" |} |} ] |};
                 finishReason := Some "STOP" |} ];
     text := Some "Here are two views." |}.

(** The tee tried on, then the third pose generated. *)
Definition teeThirdPose : AppState :=
  run sampleFriendly [PoseSelect (pngReply "I2") 2] wearingTee.

(** The tee taken off again, then a clip made of the bare model. *)
Definition teeUndoneWithClip : AppState :=
  run sampleFriendly
    [RemoveLastGarment; GenerateVideo true (Return "blob:clip-of-model") veo_fast]
    wearingTee.

(** A clip made of the tee in its third pose. *)
Definition teeThirdPoseWithClip : AppState :=
  run sampleFriendly [GenerateVideo true (Return "blob:clip-of-pose-3") veo_fast]
    teeThirdPose.

(** The fourth pose was requested for the tee in its third pose, Start
    Over was pressed while the request was pending, and then the request
    failed: the start screen is shown again. *)
Definition startOverDuringPoseChange : AppState :=
  teeThirdPose
    |> poseSelectStarted 3
    |> handleStartOver
    |> poseSelectSettled sampleFriendly teeThirdPose 3 (Throw "offline").

(** ** More of [services/geminiService.ts]: parsing a data URL *)

(** The outcome of a function that returns a value or throws. *)
Inductive Result (A : Type) : Type :=
  | Ok (value : A)
  | Raise (message : string).
Arguments Ok {A} value.
Arguments Raise {A} message.

(** Every character of [s] passes [p]. *)
Fixpoint allChars (p : Ascii.ascii → bool) (s : string) : bool :=
  match s with
  | EmptyString => true
  | String c rest => p c && allChars p rest
  end.

Definition isNot (c : Ascii.ascii) : Ascii.ascii → bool :=
  fun c' => negb (Ascii.eqb c' c).

(** [s.split(sep)] for a separator of one character. *)
Fixpoint split (sep : Ascii.ascii) (s : string) : list string :=
  match s with
  | EmptyString => [""]
  | String c rest =>
      if Ascii.eqb c sep then "" :: split sep rest
      else
        match split sep rest with
        | field :: fields => String c field :: fields
        | [] => [String c ""]
        end
  end.

(** The characters [.] does not match in a regular expression: U+000A,
    U+000D, U+2028 and U+2029, as their UTF-8 bytes. *)
Definition lineTerminators : list string :=
  map bytes [ [10]; [13]; [226; 128; 168]; [226; 128; 169] ].

(** [(.*?);] matched at the start of [s]: the characters in front of the
    first [;], provided no line terminator comes before it. *)
Fixpoint lazyUntilSemicolon (s : string) : option string :=
  match s with
  | EmptyString => None
  | String c rest =>
      if Ascii.eqb c ";"%char then Some ""
      else
        match dropOne lineTerminators s with
        | Some _ => None
        | None => String c <$> lazyUntilSemicolon rest
        end
  end.

(** [s.match(/:(.*?);/)]: the capture group of the leftmost match, or
    [None] for [null]. *)
Fixpoint matchMime (s : string) : option string :=
  match s with
  | EmptyString => None
  | String c rest =>
      if Ascii.eqb c ":"%char then
        match lazyUntilSemicolon rest with
        | Some group => Some group
        | None => matchMime rest
        end
      else matchMime rest
  end.

Definition dataUrlToParts (dataUrl : string) : Result (string * string) :=
  match split "," dataUrl with
  | first :: second :: _ =>
      match matchMime first with
      | Some mime =>
          if truthy mime then Ok (mime, second)
          else Raise "Could not parse MIME type from data URL"
      | None => Raise "Could not parse MIME type from data URL"
      end
  | _ => Raise "Invalid data URL"
  end.

Definition dataUrlToPart (dataUrl : string) : Result Part :=
  match dataUrlToParts dataUrl with
  | Ok (mime, payload) =>
      Ok {| inlineData := Some {| mimeType := Some mime; data := Some payload |} |}
  | Raise message => Raise message
  end.

(** No line terminator (U+000A, U+000D, U+2028, U+2029) occurs in [s]. *)
Fixpoint noLineTerminator (s : string) : bool :=
  match s with
  | EmptyString => true
  | String c rest =>
      match dropOne lineTerminators s with
      | Some _ => false
      | None => noLineTerminator rest
      end
  end.

(** ** More of [App.tsx]: saved outfits and whole sessions *)

(** [idNow] and [stampNow] are the values of the two [Date.now()] calls;
    a number in a template prints in decimal. *)
Definition handleSaveOutfit (idNow stampNow : nat) (s : AppState) : AppState :=
  match displayImageUrl s with
  | None => s
  | Some shown =>
      if negb (truthy shown) then s
      else
        let currentItems := omap garment (activeOutfitLayers s) in
        let newSaved :=
          {| SavedOutfit.id := "saved-" +:+ pretty idNow;
             SavedOutfit.imageUrl := shown;
             SavedOutfit.items := currentItems;
             SavedOutfit.timestamp := stampNow |} in
        s |> setSavedOutfits (fun prev => newSaved :: prev)
  end.

Definition handleDeleteSavedOutfit (savedId : string) (s : AppState) : AppState :=
  s |> setSavedOutfits
         (fun prev => filter (fun o => SavedOutfit.id o ≠ savedId) prev).

(** All the handlers of [App]: those of the outfit engine, Start Over,
    and the two of the saved outfits. *)
Inductive AppEvent : Type :=
  | Engine (e : Event)
  | StartOver
  | SaveOutfit (idNow stampNow : nat)
  | DeleteSavedOutfit (savedId : string).

Definition appStep (getFriendlyErrorMessage : string → string → string)
    (e : AppEvent) (s : AppState) : AppState :=
  match e with
  | Engine e' => step getFriendlyErrorMessage e' s
  | StartOver => handleStartOver s
  | SaveOutfit idNow stampNow => handleSaveOutfit idNow stampNow s
  | DeleteSavedOutfit savedId => handleDeleteSavedOutfit savedId s
  end.

Definition appRun (getFriendlyErrorMessage : string → string → string)
    (es : list AppEvent) (s : AppState) : AppState :=
  foldl (fun acc e => appStep getFriendlyErrorMessage e acc) s es.

(** Every layer but the first wears a garment. *)
Definition garmentsAfterBase (s : AppState) : Prop :=
  ∀ i layer, outfitHistory s !! i = Some layer → 0 < i → is_Some (garment layer).

(** The tee, then the cap on top of it. *)
Definition wearingTeeAndCap : AppState :=
  run sampleFriendly
    [GarmentSelect (pngReply "I1") teeFile tee; GarmentSelect (pngReply "I3") capFile cap]
    bareModel.

(** ** Handlers that overlap *)

(** In the browser an asynchronous handler stops at its [await], and
    other events are handled before its promise settles.  When it
    resumes it still reads the constants of the render it was created
    on (its closure), while its setters act on the state of that moment
    and its functional updates read it.  A session keeps the state of
    the last render, the handlers that are waiting, each with the
    render state its closure captured, and the service calls made so
    far. *)
Inductive Pending : Type :=
  | loadingFile (closure : AppState) (item : WardrobeItem)
  | tryingOn (closure : AppState) (garmentInfo : WardrobeItem)
  | changingPose (closure : AppState) (newIndex : nat).

(** A pending promise that is a request to the generation service. *)
Definition requestPending (p : Pending) : bool :=
  match p with
  | loadingFile _ _ => false
  | tryingOn _ _ | changingPose _ _ => true
  end.

(** What a pending promise settles with: [urlToFile] with a file or a
    rejection, a request to the service with its reply. *)
Inductive Settlement : Type :=
  | fileLoaded (loaded : option File)
  | serviceReplied (reply : ApiReply).

Record Session := {
  rendered : AppState;
  waiting : list Pending;
  issued : list ServiceCall
}.

(** What happens in a session: the button of the start screen, a click
    on an item of the wardrobe panel, a file chosen in its upload field
    ([now] is the value of [Date.now()], [objectUrl] that of
    [URL.createObjectURL]), the remove button of the outfit stack, a
    pose button of the canvas, its Start Over button, and the settling
    of the [k]-th pending promise. *)
Inductive Action : Type :=
  | FinalizeModel (url : string)
  | ClickGarment (item : WardrobeItem)
  | UploadGarment (file : File) (now : nat) (objectUrl : string)
  | RemoveLast
  | SelectPose (newIndex : nat)
  | PressStartOver
  | Settle (k : nat) (answer : Settlement).

(** [handleGarmentSelect] up to its [await], created on the render
    [closure] and called while the state is [running]: the guard, the
    next layer and the image sent are the closure's, the setters act on
    the running state.  The last component tells whether the handler is
    now waiting for the service. *)
Definition garmentSelectCalled (closure : AppState)
    (garmentFile : File) (garmentInfo : WardrobeItem)
    (running : AppState) : AppState * list ServiceCall * bool :=
  match displayImageUrl closure with
  | None => (running, [], false)
  | Some shown =>
      if negb (truthy shown) || isLoading closure then (running, [], false)
      else
        let nextLayer := outfitHistory closure !! (currentOutfitIndex closure + 1) in
        if sameGarment nextLayer garmentInfo then
          (running |> setCurrentOutfitIndex (fun prev => prev + 1)
                   |> setCurrentPoseIndex (to 0),
           [], false)
        else
          (garmentSelectStarted garmentInfo running,
           [callVirtualTryOn shown garmentFile], true)
  end.

(** [handlePoseSelect] up to its [await]; a pose button calls the
    handler of the render it is on, so closure and running state are
    the same. *)
Definition poseSelectCalled (newIndex : nat)
    (s : AppState) : AppState * list ServiceCall * bool :=
  if isLoading s || (length (outfitHistory s) =? 0)%nat || (newIndex =? currentPoseIndex s)%nat
  then (s, [], false)
  else
    let poseInstruction := poseInstructionAt newIndex in
    match outfitHistory s !! currentOutfitIndex s with
    | None => (s, [], false)
    | Some currentLayer =>
        if truthyOpt (objectGet (poseImages currentLayer) poseInstruction) then
          (s |> setCurrentPoseIndex (to newIndex), [], false)
        else
          match head (objectValues (poseImages currentLayer)) with
          | None => (s, [], false)
          | Some baseImageForPoseChange =>
              if negb (truthy baseImageForPoseChange) then (s, [], false)
              else
                (poseSelectStarted newIndex s,
                 [callPoseVariation baseImageForPoseChange poseInstruction], true)
          end
    end.

Section Overlap.

Variable getFriendlyErrorMessage : string → string → string.

(** One action.  [None] means that the action cannot happen in this
    session (its button is not on the screen, no such promise is
    pending, the answer is not of its kind), or that it leaves the
    states [AppState] describes: a pose image that arrives for an index
    past the end of the running history makes JavaScript extend the
    array with a layer that has no [garment] property.

    The dressing room is on the screen when [modelImageUrl] is truthy,
    the start screen otherwise, and the start screen calls
    [onModelFinalized] with a truthy URL only.  The wardrobe panel and
    the pose buttons get [isLoading || isVideoLoading] as their
    [isLoading]; the upload field is disabled while it is true, and
    [handleFileChange] calls [onGarmentSelect] at once, on the render it
    is on.  The items clicked are those the panel shows, the items of
    the wardrobe.  [components/OutfitStack] is not among the sources;
    its button calls [handleRemoveLastGarment].  The handlers of the
    video and of the saved outfits are not among the actions: they
    write neither the history, the cursor, the pose index, the wardrobe
    nor [isLoading]. *)
Definition act (a : Action) (x : Session) : option Session :=
  let s := rendered x in
  let dressingRoom := truthyOpt (modelImageUrl s) in
  match a with
  | FinalizeModel url =>
      if negb dressingRoom && truthy url then
        Some {| rendered := handleModelFinalized url s;
                waiting := waiting x; issued := issued x |}
      else None
  | ClickGarment item =>
      if negb dressingRoom then None
      else if (isLoading s || isVideoLoading s)
              || existsb (String.eqb (id item)) (activeGarmentIds s)
      then Some x
      else Some {| rendered := s;
                   waiting := waiting x ++ [loadingFile s item];
                   issued := issued x |}
  | UploadGarment file now objectUrl =>
      if negb dressingRoom then None
      else if isLoading s || isVideoLoading s then Some x
      else if negb (String.prefix "image/" (fileType file)) then Some x
      else
        let customGarmentInfo :=
          {| id := "custom-" +:+ pretty now; name := fileName file;
             url := objectUrl; category := clothing |} in
        let '(started, calls, awaits) :=
          garmentSelectCalled s file customGarmentInfo s in
        Some {| rendered := started;
                waiting := waiting x
                           ++ (if awaits then [tryingOn s customGarmentInfo] else []);
                issued := issued x ++ calls |}
  | RemoveLast =>
      if negb dressingRoom then None
      else Some {| rendered := handleRemoveLastGarment s;
                   waiting := waiting x; issued := issued x |}
  | SelectPose newIndex =>
      if negb dressingRoom then None
      else if isLoading s || isVideoLoading s then Some x
      else
        let '(started, calls, awaits) := poseSelectCalled newIndex s in
        Some {| rendered := started;
                waiting := waiting x ++ (if awaits then [changingPose s newIndex] else []);
                issued := issued x ++ calls |}
  | PressStartOver =>
      if negb dressingRoom then None
      else Some {| rendered := handleStartOver s;
                   waiting := waiting x; issued := issued x |}
  | Settle k answer =>
      match waiting x !! k, answer with
      | Some (loadingFile closure item), fileLoaded (Some file) =>
          let '(started, calls, awaits) := garmentSelectCalled closure file item s in
          Some {| rendered := started;
                  waiting := delete k (waiting x)
                             ++ (if awaits then [tryingOn closure item] else []);
                  issued := issued x ++ calls |}
      | Some (loadingFile _ _), fileLoaded None =>
          Some {| rendered := s; waiting := delete k (waiting x); issued := issued x |}
      | Some (tryingOn closure garmentInfo), serviceReplied reply =>
          Some {| rendered :=
                    garmentSelectSettled getFriendlyErrorMessage closure garmentInfo
                      (generateVirtualTryOnImage reply) s;
                  waiting := delete k (waiting x); issued := issued x |}
      | Some (changingPose closure newIndex), serviceReplied reply =>
          let outcome := generatePoseVariation reply in
          let inHistory := (currentOutfitIndex closure <? length (outfitHistory s))%nat in
          if match outcome with Return _ => inHistory | Throw _ => true end then
            Some {| rendered :=
                      poseSelectSettled getFriendlyErrorMessage closure newIndex outcome s;
                    waiting := delete k (waiting x); issued := issued x |}
          else None
      | _, _ => None
      end
  end.

(** The session after the actions of [actions], oldest first. *)
Definition perform (actions : list Action) (x : Session) : option Session :=
  foldl (fun acc a => acc ≫= act a) (Some x) actions.

End Overlap.

(** The session when [App] is mounted. *)
Definition atMount : Session :=
  {| rendered := initialState; waiting := []; issued := [] |}.

(** The model photo finalized, then the tee and the cap clicked before
    the file of the tee has loaded; both files load, both requests are
    answered. *)
Definition twoClicksOnOneRender : list Action :=
  [FinalizeModel modelPhoto; ClickGarment tee; ClickGarment cap;
   Settle 0 (fileLoaded (Some teeFile)); Settle 0 (fileLoaded (Some capFile));
   Settle 0 (serviceReplied (pngReply "I1")); Settle 0 (serviceReplied (pngReply "I3"))].

(** The tee tried on and taken off again. *)
Definition teeWornAndUndone : list Action :=
  [FinalizeModel modelPhoto; ClickGarment tee;
   Settle 0 (fileLoaded (Some teeFile)); Settle 0 (serviceReplied (pngReply "I1"));
   RemoveLast].

(** The tee clicked twice before its file has loaded; then both files
    load. *)
Definition doubleClickOnTee : list Action :=
  [ClickGarment tee; ClickGarment tee;
   Settle 0 (fileLoaded (Some teeFile)); Settle 0 (fileLoaded (Some teeFile))].

(** A shirt of the user's own uploaded twice at the same clock value,
    each upload answered with an image. *)
Definition shirtFile : File :=
  {| fileName := "shirt.png"; fileType := "image/png"; fileContents := "shirt-pixels" |}.

Definition shirtUploadedTwice : list Action :=
  [FinalizeModel modelPhoto;
   UploadGarment shirtFile 17 "blob:shirt-1"; Settle 0 (serviceReplied (pngReply "I5"));
   UploadGarment shirtFile 17 "blob:shirt-2"; Settle 0 (serviceReplied (pngReply "I6"))].

(** The tee tried on and its third pose generated; the fourth pose is
    asked for and Start Over is pressed while the request is pending. *)
Definition startOverWhilePosePending : list Action :=
  [FinalizeModel modelPhoto; ClickGarment tee;
   Settle 0 (fileLoaded (Some teeFile)); Settle 0 (serviceReplied (pngReply "I1"));
   SelectPose 2; Settle 0 (serviceReplied (pngReply "I2"));
   SelectPose 3; PressStartOver].

(** ** The pose arrows of [components/Canvas.tsx], as [App] mounts them *)

(** [arr.indexOf(v)]; [None] stands for [-1]. *)
Fixpoint indexOfString (v : string) (arr : list string) : option nat :=
  match arr with
  | [] => None
  | a :: rest => if String.eqb a v then Some 0 else S <$> indexOfString v rest
  end.

(** [arr.indexOf(x)] for [x] a string or [undefined]: an array of
    strings has no [undefined] in it. *)
Definition indexOf (x : option string) (arr : list string) : option nat :=
  match x with
  | Some v => indexOfString v arr
  | None => None
  end.

(** The index [handlePreviousPose] passes to [onSelectPose], or [None]
    when it does not call it.  [App] passes [isLoading || isVideoLoading]
    for [isLoading], and [POSE_INSTRUCTIONS] for [poseInstructions].
    [(i - 1 + n) % n] is written [(i + n - 1) mod n], the same number
    for [1 ≤ n]. *)
Definition handlePreviousPose (s : AppState) : option nat :=
  let poseInstructions := POSE_INSTRUCTIONS in
  if (isLoading s || isVideoLoading s) || (length (availablePoseKeys s) <=? 1) then None
  else
    let currentPoseInstruction := poseInstructions !! currentPoseIndex s in
    match indexOf currentPoseInstruction (availablePoseKeys s) with
    | None =>
        Some ((currentPoseIndex s + length poseInstructions - 1)
              mod length poseInstructions)
    | Some currentIndexInAvailable =>
        let prevIndexInAvailable :=
          (currentIndexInAvailable + length (availablePoseKeys s) - 1)
          mod length (availablePoseKeys s) in
        let prevPoseInstruction := availablePoseKeys s !! prevIndexInAvailable in
        indexOf prevPoseInstruction poseInstructions
    end.

Definition handleNextPose (s : AppState) : option nat :=
  let poseInstructions := POSE_INSTRUCTIONS in
  if isLoading s || isVideoLoading s then None
  else
    let currentPoseInstruction := poseInstructions !! currentPoseIndex s in
    match indexOf currentPoseInstruction (availablePoseKeys s) with
    | None => Some ((currentPoseIndex s + 1) mod length poseInstructions)
    | Some currentIndexInAvailable =>
        if length (availablePoseKeys s) =? 0
        then Some ((currentPoseIndex s + 1) mod length poseInstructions)
        else
          let nextIndexInAvailable := currentIndexInAvailable + 1 in
          if nextIndexInAvailable <? length (availablePoseKeys s) then
            let nextPoseInstruction := availablePoseKeys s !! nextIndexInAvailable in
            indexOf nextPoseInstruction poseInstructions
          else Some ((currentPoseIndex s + 1) mod length poseInstructions)
    end.

(** A click on an arrow: the arrow's handler, then [handlePoseSelect]
    with the index it passes. *)
Definition arrowClick (getFriendlyErrorMessage : string → string → string)
    (arrow : AppState → option nat) (reply : ApiReply)
    (s : AppState) : AppState * list ServiceCall :=
  match arrow s with
  | Some newIndex => handlePoseSelect getFriendlyErrorMessage reply newIndex s
  | None => (s, [])
  end.

(** The pose selections of an event ask for one of the poses. *)
Definition poseInRange (e : AppEvent) : Prop :=
  match e with
  | Engine (PoseSelect _ newIndex) => newIndex < length POSE_INSTRUCTIONS
  | _ => True
  end.

(** The pose index is one of the poses, and the pose images of every
    layer are filed under different poses of the list. *)
Definition posesKnown (s : AppState) : Prop :=
  currentPoseIndex s < length POSE_INSTRUCTIONS
  ∧ Forall (fun layer =>
              NoDup (objectKeys (poseImages layer))
              ∧ ∀ pose, pose ∈ objectKeys (poseImages layer) → pose ∈ POSE_INSTRUCTIONS)
           (outfitHistory s).

(** ** [components/StartScreen.tsx] *)

(** [generateModelImage(imageSource)] of the service: a string source is
    parsed as a data URL first, a [File] is read; [reply] is what
    [generateContent] answers, or the failure of reading the file. *)
Definition generateModelImage (reply : ApiReply) (imageSource : string + File) : Completion :=
  match imageSource with
  | inl dataUrl =>
      match dataUrlToPart dataUrl with
      | Raise message => Throw message
      | Ok _ => imageOperation reply
      end
  | inr _ => imageOperation reply
  end.

(** [removeBackground(imageSource)] has the same shape. *)
Definition removeBackground (reply : ApiReply) (imageSource : string + File) : Completion :=
  match imageSource with
  | inl dataUrl =>
      match dataUrlToPart dataUrl with
      | Raise message => Throw message
      | Ok _ => imageOperation reply
      end
  | inr _ => imageOperation reply
  end.

Module StartScreen.

(** The [useState] cells of the start screen. *)
Record State := {
  userImageUrl : option string;
  originalFile : option File;
  processedUserImageUrl : option string;
  generatedModelUrl : option string;
  isRemovingBg : bool;
  isGenerating : bool;
  error : option string
}.

Definition initial : State :=
  {| userImageUrl := None; originalFile := None; processedUserImageUrl := None;
     generatedModelUrl := None; isRemovingBg := false; isGenerating := false;
     error := None |}.

Definition setError (v : option string) (st : State) : State :=
  {| userImageUrl := userImageUrl st; originalFile := originalFile st;
     processedUserImageUrl := processedUserImageUrl st;
     generatedModelUrl := generatedModelUrl st; isRemovingBg := isRemovingBg st;
     isGenerating := isGenerating st; error := v |}.

Definition setProcessedUserImageUrl (v : option string) (st : State) : State :=
  {| userImageUrl := userImageUrl st; originalFile := originalFile st;
     processedUserImageUrl := v;
     generatedModelUrl := generatedModelUrl st; isRemovingBg := isRemovingBg st;
     isGenerating := isGenerating st; error := error st |}.

Definition setGeneratedModelUrl (v : option string) (st : State) : State :=
  {| userImageUrl := userImageUrl st; originalFile := originalFile st;
     processedUserImageUrl := processedUserImageUrl st;
     generatedModelUrl := v; isRemovingBg := isRemovingBg st;
     isGenerating := isGenerating st; error := error st |}.

Definition setIsRemovingBg (v : bool) (st : State) : State :=
  {| userImageUrl := userImageUrl st; originalFile := originalFile st;
     processedUserImageUrl := processedUserImageUrl st;
     generatedModelUrl := generatedModelUrl st; isRemovingBg := v;
     isGenerating := isGenerating st; error := error st |}.

Definition setIsGenerating (v : bool) (st : State) : State :=
  {| userImageUrl := userImageUrl st; originalFile := originalFile st;
     processedUserImageUrl := processedUserImageUrl st;
     generatedModelUrl := generatedModelUrl st; isRemovingBg := isRemovingBg st;
     isGenerating := v; error := error st |}.

(** [read] is the data URL the [FileReader] loads, or [None] when its
    [onload] never fires. *)
Definition handleFileSelect (read : option string) (file : File) (st : State) : State :=
  if negb (String.prefix "image/" (fileType file)) then
    st |> setError (Some "กรุณาเลือกไฟล์รูปภาพ")
  else
    match read with
    | Some dataUrl =>
        {| userImageUrl := Some dataUrl; originalFile := Some file;
           processedUserImageUrl := None; generatedModelUrl := None;
           isRemovingBg := isRemovingBg st; isGenerating := isGenerating st;
           error := None |}
    | None => st
    end.

Definition reset (st : State) : State := initial.

Section Handlers.

Variable getFriendlyErrorMessage : string → string → string.

Definition handleRemoveBackground (reply : ApiReply) (st : State) : State :=
  match originalFile st with
  | Some file =>
      if negb (truthyOpt (userImageUrl st)) then st
      else
        let started := st |> setIsRemovingBg true |> setError None in
        match removeBackground reply (inr file) with
        | Return result => started |> setProcessedUserImageUrl (Some result)
        | Throw err =>
            started |> setError (Some (getFriendlyErrorMessage err "ลบพื้นหลังไม่สำเร็จ"))
        end
        |> setIsRemovingBg false
  | None => st
  end.

Definition handleGenerateModel (reply : ApiReply) (st : State) : State :=
  let source : option (string + File) :=
    if truthyOpt (processedUserImageUrl st)
    then inl <$> processedUserImageUrl st
    else inr <$> originalFile st in
  match source with
  | None => st
  | Some source =>
      let started := st |> setIsGenerating true |> setError None in
      match generateModelImage reply source with
      | Return result => started |> setGeneratedModelUrl (Some result)
      | Throw err =>
          started
            |> setError (Some (getFriendlyErrorMessage err "สร้างนางแบบ/นายแบบไม่สำเร็จ"))
      end
      |> setIsGenerating false
  end.

Inductive Event : Type :=
  | FileSelect (read : option string) (file : File)
  | RemoveBackground (reply : ApiReply)
  | GenerateModel (reply : ApiReply)
  | Reset.

Definition step (e : Event) (st : State) : State :=
  match e with
  | FileSelect read file => handleFileSelect read file st
  | RemoveBackground reply => handleRemoveBackground reply st
  | GenerateModel reply => handleGenerateModel reply st
  | Reset => reset st
  end.

Definition run (es : list Event) (st : State) : State :=
  foldl (fun acc e => step e acc) st es.

End Handlers.

(** The URL the button to the dressing room passes to
    [onModelFinalized], when the button is rendered: the photo view is
    shown, nothing is in progress, no error is displayed and a model has
    been generated. *)
Definition finalizeOffered (st : State) : option string :=
  if truthyOpt (userImageUrl st)
     && negb (isRemovingBg st || isGenerating st)
     && negb (truthyOpt (error st))
     && truthyOpt (generatedModelUrl st)
  then generatedModelUrl st
  else None.

End StartScreen.

(** A portrait chosen on the start screen. *)
Definition portrait : File :=
  {| fileName := "me.jpg"; fileType := "image/jpeg"; fileContents := "portrait-pixels" |}.

(** ** More of [services/geminiService.ts]: [generateVideo] *)

(** What [generateVideo] reads of a video operation: [operation.done]
    ([undefined] counts as [false]) and
    [operation.response?.generatedVideos?.[0]?.video?.uri]. *)
Record VideosOperation := { done : bool; videoUri : option string }.

(** The request passed to [ai.models.generateVideos]; [numberOfVideos]
    is always 1 and [aspectRatio] always 9:16. *)
Record VideoRequest := {
  requestModel : string;
  requestPrompt : string;
  requestImageBytes : string;
  requestMimeType : string;
  requestResolution : string
}.

Definition basePrompt : string :=
  "Cinematic fashion clip. The model walks gracefully on a minimalist studio catwalk, showing off the outfit and accessories. Photorealistic, professional lighting.".

(** What [generateVideo] does to the outside, in order. *)
Inductive VideoEffect : Type :=
  | startVideo (request : VideoRequest)
  | sleep (milliseconds : N)
  | pollOperation
  | fetchVideo (url : string).

(** The loop [while (!operation.done)]: [answers] are the operations
    that the successive calls of [getVideosOperation] return, or the
    errors they throw.  The result is the operation that is done (or the
    error) with the effects of the loop, or [None] when the answers run
    out with the operation still not done: the loop is still waiting. *)
Fixpoint pollUntilDone (operation : VideosOperation)
    (answers : list (Result VideosOperation))
    : option (Result VideosOperation * list VideoEffect) :=
  if done operation then Some (Ok operation, [])
  else
    match answers with
    | [] => None
    | Raise message :: _ => Some (Raise message, [sleep 10000%N; pollOperation])
    | Ok next :: answers' =>
        match pollUntilDone next answers' with
        | Some (outcome, effects) => Some (outcome, sleep 10000%N :: pollOperation :: effects)
        | None => None
        end
    end.

(** The prompt and the resolution depend on whether the name of the
    model contains "fast". *)
Definition videoRequest (modelName mimeType data : string) : VideoRequest :=
  let prompt :=
    if includes "fast" modelName then basePrompt
    else basePrompt +:+ " Extremely high detail, 4k cinematic resolution, buttery smooth motion, dramatic shadows." in
  {| requestModel := modelName; requestPrompt := prompt;
     requestImageBytes := data; requestMimeType := mimeType;
     requestResolution := if includes "fast" modelName then "720p" else "1080p" |}.

(** [generateVideo(imageSource, modelName)].  [started] is what
    [ai.models.generateVideos] answers, [answers] what the polls answer,
    [fetched] the object URL made of the downloaded clip (or the error
    of the download), [apiKey] the value of [process.env.API_KEY]. *)
Definition generateVideo (apiKey : option string)
    (started : Result VideosOperation) (answers : list (Result VideosOperation))
    (fetched : string → Completion)
    (imageSource modelName : string) : option (Completion * list VideoEffect) :=
  match dataUrlToParts imageSource with
  | Raise message => Some (Throw message, [])
  | Ok (mimeType, data) =>
      let request := videoRequest modelName mimeType data in
      match started with
      | Raise message => Some (Throw message, [startVideo request])
      | Ok operation =>
          match pollUntilDone operation answers with
          | None => None
          | Some (Raise message, effects) => Some (Throw message, startVideo request :: effects)
          | Some (Ok finished, effects) =>
              let downloadLink := videoUri finished in
              let url := templateArg downloadLink +:+ "&key=" +:+ templateArg apiKey in
              Some (fetched url, startVideo request :: effects ++ [fetchVideo url])
          end
      end
  end.

(** The effects of [n] rounds of the loop. *)
Fixpoint rounds (n : nat) : list VideoEffect :=
  match n with
  | O => []
  | S n' => sleep 10000%N :: pollOperation :: rounds n'
  end.

Definition pending : VideosOperation := {| done := false; videoUri := None |}.

(** The layer of the tee in [wearingTee], and the same layer in
    [teeThirdPose]. *)
Definition teeLayer : OutfitLayer :=
  {| garment := Some tee;
     poseImages := [(poseInstructionAt 0, "data:image/png;base64,I1")] |}.

Definition teeLayerTwoPoses : OutfitLayer :=
  {| garment := Some tee;
     poseImages := [(poseInstructionAt 0, "data:image/png;base64,I1");
                    (poseInstructionAt 2, "data:image/png;base64,I2")] |}.

(** The tee with its third pose generated, shown in its first pose
    again. *)
Definition teeFirstPoseAgain : AppState :=
  run sampleFriendly
    [GarmentSelect (pngReply "I1") teeFile tee; PoseSelect (pngReply "I2") 2;
     PoseSelect (pngReply "I9") 0]
    bareModel.

(** ** Properties of the helpers *)

Lemma stripPrefix_length p s rest :
  stripPrefix p s = Some rest → String.length s = String.length p + String.length rest.
Proof.
  revert s. induction p as [|a p IH]; intros s H.
  - simpl in H. injection H as ->. reflexivity.
  - destruct s as [|b s]; simpl in H; [congruence|].
    destruct (Ascii.eqb a b); [|congruence].
    simpl. rewrite (IH _ H). reflexivity.
Qed.

Lemma dropOne_shorter ws s rest :
  Forall (fun w => 0 < String.length w) ws →
  dropOne ws s = Some rest → String.length rest < String.length s.
Proof.
  induction 1 as [|w ws Hw _ IH]; simpl; [congruence|].
  destruct (stripPrefix w s) as [r|] eqn:E; [|exact IH].
  intros [= ->]. apply stripPrefix_length in E. lia.
Qed.

(** The fuel of [dropLeading] is enough: nothing of [ws] is left in
    front of the result. *)
Lemma dropLeading_done ws fuel s :
  Forall (fun w => 0 < String.length w) ws →
  (String.length s ≤ fuel)%nat →
  dropOne ws (dropLeading ws fuel s) = None.
Proof.
  intros Hws. revert s. induction fuel as [|fuel IH]; intros s Hlen; simpl.
  - destruct (dropOne ws s) as [r|] eqn:E; [|reflexivity].
    apply dropOne_shorter in E; [lia|assumption].
  - destruct (dropOne ws s) as [r|] eqn:E; [|exact E].
    apply IH. apply dropOne_shorter in E; [lia|assumption].
Qed.

Lemma whiteSpace_nonempty : Forall (fun w => 0 < String.length w) whiteSpace.
Proof. repeat constructor. Qed.

Lemma trimStart_done s : dropOne whiteSpace (trimStart s) = None.
Proof. apply dropLeading_done; [apply whiteSpace_nonempty|reflexivity]. Qed.

Lemma rev_app_length s1 s2 :
  String.length (String.rev_app s1 s2) = String.length s1 + String.length s2.
Proof.
  revert s2. induction s1 as [|a s1 IH]; intros s2; simpl; [reflexivity|].
  rewrite IH. simpl. lia.
Qed.

Lemma rev_app_rev_app s1 s2 s3 :
  String.rev_app (String.rev_app s1 s2) s3 = String.rev_app s2 (s1 +:+ s3).
Proof.
  revert s2 s3. induction s1 as [|a s1 IH]; intros s2 s3; simpl; [reflexivity|].
  rewrite IH. reflexivity.
Qed.

Lemma rev_involutive s : String.rev (String.rev s) = s.
Proof.
  unfold String.rev. rewrite rev_app_rev_app. simpl.
  induction s as [|a s IH]; [reflexivity|].
  change (String a (s +:+ "") = String a s). by rewrite IH.
Qed.

(** Nothing of the white space is left behind the result of [trimEnd]. *)
Lemma trimEnd_done s :
  dropOne (map String.rev whiteSpace) (String.rev (trimEnd s)) = None.
Proof.
  unfold trimEnd. rewrite rev_involutive. apply dropLeading_done.
  - repeat constructor.
  - unfold String.rev. rewrite rev_app_length. simpl. lia.
Qed.

Lemma truthy_spec s : truthy s = true ↔ s ≠ "".
Proof.
  unfold truthy. destruct (String.eqb_spec s ""); simpl; split; congruence.
Qed.

Lemma truthy_dataUrl blob : truthy (dataUrl blob) = true.
Proof. reflexivity. Qed.

Lemma firstInlinePart_Some ps blob :
  firstInlinePart ps = Some blob → ∃ p, p ∈ ps ∧ inlineData p = Some blob.
Proof.
  induction ps as [|p ps IH]; simpl; [congruence|].
  destruct (inlineData p) as [b|] eqn:E.
  - intros [= <-]. exists p. split; [left|exact E].
  - intros H. destruct (IH H) as (q & Hq & Hb). exists q. split; [by right|exact Hb].
Qed.

Lemma firstInlinePart_None ps :
  firstInlinePart ps = None → ∀ p, p ∈ ps → inlineData p = None.
Proof.
  induction ps as [|q ps IH]; simpl; intros H p Hp.
  - inversion Hp.
  - destruct (inlineData q) as [b|] eqn:E; [congruence|].
    apply elem_of_cons in Hp as [->|Hp]; [exact E|by apply IH].
Qed.

Lemma firstInlineData_Some cs blob :
  firstInlineData cs = Some blob →
  ∃ c p, c ∈ cs ∧ p ∈ partsOf c ∧ inlineData p = Some blob.
Proof.
  induction cs as [|c cs IH]; simpl; [congruence|].
  destruct (firstInlinePart (partsOf c)) as [b|] eqn:E.
  - intros [= <-]. apply firstInlinePart_Some in E as (p & Hp & Hb).
    exists c, p. split; [left|done].
  - intros H. destruct (IH H) as (c' & p & Hc & Hp & Hb).
    exists c', p. split; [by right|done].
Qed.

Lemma firstInlineData_None cs :
  firstInlineData cs = None →
  ∀ c p, c ∈ cs → p ∈ partsOf c → inlineData p = None.
Proof.
  induction cs as [|c' cs IH]; simpl; intros H c p Hc Hp.
  - inversion Hc.
  - destruct (firstInlinePart (partsOf c')) as [b|] eqn:E; [congruence|].
    apply elem_of_cons in Hc as [->|Hc].
    + by eapply firstInlinePart_None.
    + by eapply IH.
Qed.

Lemma no_inline_firstInlineData response :
  (∀ blob, ¬ carriesInline response blob) →
  firstInlineData (default [] (candidates response)) = None.
Proof.
  intros Hno. destruct (firstInlineData _) as [b|] eqn:E; [|reflexivity].
  exfalso. apply (Hno b). by apply firstInlineData_Some.
Qed.

Lemma firstInlinePart_first ps blob :
  firstInlinePart ps = Some blob →
  ∃ before p after,
    ps = before ++ p :: after ∧ inlineData p = Some blob
    ∧ ∀ p', p' ∈ before → inlineData p' = None.
Proof.
  induction ps as [|q ps IH]; simpl; [discriminate|].
  destruct (inlineData q) as [b|] eqn:E.
  - intros [= <-]. exists [], q, ps. split; [reflexivity|]. split; [exact E|].
    by intros p' ?%elem_of_nil.
  - intros H. destruct (IH H) as (before & p & after & -> & Hp & Hbefore).
    exists (q :: before), p, after. split; [reflexivity|]. split; [exact Hp|].
    intros p' [->|Hin]%elem_of_cons; [exact E|by apply Hbefore].
Qed.

Lemma firstInlineData_first response blob :
  firstInlineData (default [] (candidates response)) = Some blob →
  firstInline response blob.
Proof.
  unfold firstInline. generalize (default [] (candidates response)) as cs.
  induction cs as [|c cs IH]; simpl; [discriminate|].
  destruct (firstInlinePart (partsOf c)) as [b|] eqn:E.
  - intros [= <-].
    destruct (firstInlinePart_first _ _ E) as (before & p & after & Hparts & Hp & Hbefore).
    exists [], c, cs, before, p, after. split; [reflexivity|].
    split; [exact Hparts|]. split; [exact Hp|]. split; [|exact Hbefore].
    by intros c' p' ?%elem_of_nil.
  - intros H.
    destruct (IH H) as (earlier & c0 & later & before & p & after
                        & -> & Hparts & Hp & Hearlier & Hbefore).
    exists (c :: earlier), c0, later, before, p, after. split; [reflexivity|].
    split; [exact Hparts|]. split; [exact Hp|]. split; [|exact Hbefore].
    intros c' p' [->|Hin]%elem_of_cons Hp'.
    + by eapply firstInlinePart_None.
    + by eapply Hearlier.
Qed.

(** There is at most one first part. *)
Lemma firstInline_unique response blob blob' :
  firstInline response blob → firstInline response blob' → blob = blob'.
Proof.
  assert (∀ blob, firstInline response blob →
                  firstInlineData (default [] (candidates response)) = Some blob) as Hfirst.
  { clear. intros blob (earlier & c & later & before & p & after
                        & -> & Hparts & Hp & Hearlier & Hbefore).
    induction earlier as [|c' earlier IH]; simpl.
    - rewrite Hparts. clear Hparts Hearlier.
      induction before as [|q before IH]; simpl; [by rewrite Hp|].
      rewrite (Hbefore q) by left. apply IH. intros p' Hin. apply Hbefore. by right.
    - destruct (firstInlinePart (partsOf c')) as [b|] eqn:E.
      + apply firstInlinePart_Some in E as (q & Hq & Hb).
        rewrite (Hearlier c' q) in Hb; [discriminate|left|exact Hq].
      + apply IH. intros c0 p0 Hin. apply Hearlier. by right. }
  intros H H'. apply Hfirst in H, H'. congruence.
Qed.

(** An image operation that returns, returns a non-empty data URL. *)
Lemma imageOperation_Return reply image :
  imageOperation reply = Return image → truthy image = true.
Proof.
  destruct reply as [m|response]; simpl; [congruence|].
  unfold handleApiResponse.
  destruct (firstInlineData _) as [b|].
  - intros [= <-]. apply truthy_dataUrl.
  - destruct (_ && _); congruence.
Qed.

(** ** The response handler *)

(** C9 (amended): if some candidate part carries inline data, the
    operation returns the data of the first such part, in the order of
    the candidates and of their parts, as a data URL; otherwise, if the first candidate has a non-empty finish reason
    other than STOP, it throws an error naming that reason; otherwise it
    throws the response's text with surrounding white space trimmed, or
    the generic no-image message when there is no text or the trimmed
    text is empty. *)
Theorem handleApiResponse_cases (response : GenerateContentResponse) :
  (∀ blob, carriesInline response blob →
     ∃ first, firstInline response first
              ∧ handleApiResponse response = Return (dataUrl first))
  ∧ ((∀ blob, ¬ carriesInline response blob) →
     ∀ reason, firstFinishReason response = Some reason →
       reason ≠ "" → reason ≠ "STOP" →
       handleApiResponse response
       = Throw ("Image generation stopped. Reason: " +:+ reason))
  ∧ ((∀ blob, ¬ carriesInline response blob) →
     firstFinishReason response = None
     ∨ firstFinishReason response = Some ""
     ∨ firstFinishReason response = Some "STOP" →
     handleApiResponse response
     = Throw match text response with
             | Some t => if String.eqb (trim t) "" then noImageMessage else trim t
             | None => noImageMessage
             end).
Proof.
  split; [|split].
  - intros blob (c & p & Hc & Hp & Hb). unfold handleApiResponse.
    destruct (firstInlineData _) as [first|] eqn:E.
    + exists first. split; [|reflexivity]. by apply firstInlineData_first.
    + rewrite (firstInlineData_None _ E c p Hc Hp) in Hb. discriminate.
  - intros Hno reason Hr Hne Hstop. unfold handleApiResponse.
    rewrite (no_inline_firstInlineData _ Hno), Hr. simpl.
    apply truthy_spec in Hne. rewrite Hne.
    destruct (String.eqb_spec reason "STOP"); [contradiction|reflexivity].
  - intros Hno Hr. unfold handleApiResponse.
    rewrite (no_inline_firstInlineData _ Hno).
    assert (truthyOpt (firstFinishReason response)
            && negb (String.eqb (templateArg (firstFinishReason response)) "STOP")
            = false) as ->.
    { destruct Hr as [-> | [-> | ->]]; reflexivity. }
    destruct (text response) as [t|]; simpl; [|reflexivity].
    unfold truthy. destruct (String.eqb (trim t) ""); reflexivity.
Qed.

Lemma handleApiResponse_cases_witness :
  carriesInline twoImagesResponse {| mimeType := Some "image/jpeg"; data := Some "BACK" |}
  ∧ (∃ first, firstInline twoImagesResponse first
              ∧ handleApiResponse twoImagesResponse = Return (dataUrl first))
  ∧ handleApiResponse twoImagesResponse = Return "data:image/png;base64,FRONT"
  ∧ handleApiResponse blockedResponse = Throw "Image generation stopped. Reason: SAFETY"
  ∧ handleApiResponse talkingResponse = Throw "I cannot edit this photo.".
Proof.
  assert (carriesInline twoImagesResponse
            {| mimeType := Some "image/jpeg"; data := Some "BACK" |}) as Hback.
  { eexists _, _. split; [right; left|]. split; [right; right; left|reflexivity]. }
  assert (∀ blob, ¬ carriesInline blockedResponse blob) as Hblocked.
  { intros blob (c & p & Hc & Hp & _).
    apply list_elem_of_singleton in Hc as ->. inversion Hp. }
  assert (∀ blob, ¬ carriesInline talkingResponse blob) as Htalking.
  { intros blob (c & p & Hc & Hp & Hb).
    apply list_elem_of_singleton in Hc as ->.
    apply list_elem_of_singleton in Hp as ->. discriminate. }
  split; [exact Hback|]. split; [|split; [reflexivity|split]].
  - exact (proj1 (handleApiResponse_cases twoImagesResponse) _ Hback).
  - apply (proj1 (proj2 (handleApiResponse_cases blockedResponse)) Hblocked "SAFETY");
      [reflexivity|discriminate|discriminate].
  - apply (proj2 (proj2 (handleApiResponse_cases talkingResponse)) Htalking).
    right; right; reflexivity.
Defined.

(** C9, as stated, fails: the message is the trimmed text, not the
    text, and a text of white space only gives the generic message
    although the text is not empty. *)
Lemma handleApiResponse_trims_text :
  text talkingResponse = Some "  I cannot edit this photo. "
  ∧ handleApiResponse talkingResponse = Throw "I cannot edit this photo."
  ∧ "I cannot edit this photo." ≠ "  I cannot edit this photo. "
  ∧ text blankResponse = Some " "
  ∧ " " ≠ ""
  ∧ handleApiResponse blankResponse = Throw noImageMessage
  ∧ noImageMessage ≠ " ".
Proof. repeat split; try reflexivity; discriminate. Qed.

(** ** Single handlers *)

(** What [handleModelFinalized url] does to a state: it stores [url] as
    the model image, makes the history the single base layer whose only
    pose image is [url] under the first pose instruction, and sets the
    cursor to 0; it calls no other setter and has no guard of its own.
    Whatever the pose index is, the image displayed afterwards is [url],
    the only pose available is the first one and no garment is
    active. *)
Theorem handleModelFinalized_result (url : string) (s : AppState) :
  handleModelFinalized url s =
  {| modelImageUrl := Some url;
     outfitHistory :=
       [ {| garment := None;
            poseImages := [("ยืนตัวตรง มือวางข้างลำตัว", url)] |} ];
     currentOutfitIndex := 0;
     isLoading := isLoading s;
     loadingMessage := loadingMessage s;
     error := error s;
     currentPoseIndex := currentPoseIndex s;
     isSheetCollapsed := isSheetCollapsed s;
     wardrobe := wardrobe s;
     videoUrls := videoUrls s;
     isVideoLoading := isVideoLoading s;
     savedOutfits := savedOutfits s |}
  ∧ displayImageUrl (handleModelFinalized url s) = Some url
  ∧ availablePoseKeys (handleModelFinalized url s) = [poseInstructionAt 0]
  ∧ activeGarmentIds (handleModelFinalized url s) = [].
Proof.
  split; [reflexivity|]. split; [|split; reflexivity].
  unfold displayImageUrl. cbn -[String.eqb poseInstructionAt].
  destruct (String.eqb (poseInstructionAt 0) (poseInstructionAt (currentPoseIndex s)));
    reflexivity.
Qed.

(** Called on a state whose pose index is 2 the handler leaves it at
    2, and the start screen can be reached with pose index 2 (Start
    Over pressed while a pose request is pending, which then fails and
    restores the pose index it had saved); called with the empty string
    the handler still replaces the history. *)
Lemma handleModelFinalized_keeps_pose_index :
  currentPoseIndex teeThirdPose = 2
  ∧ currentPoseIndex (handleModelFinalized modelPhoto teeThirdPose) = 2
  ∧ (handlePoseSelect sampleFriendly (Rejected "offline") 3 teeThirdPose).2
    = [callPoseVariation "data:image/png;base64,I1" "กระโดดในอากาศ ท่าแอคชั่น"]
  ∧ modelImageUrl startOverDuringPoseChange = None
  ∧ currentPoseIndex startOverDuringPoseChange = 2
  ∧ currentPoseIndex (handleModelFinalized modelPhoto startOverDuringPoseChange) = 2
  ∧ outfitHistory initialState = []
  ∧ length (outfitHistory (handleModelFinalized "" initialState)) = 1.
Proof. repeat split. Qed.

(** C10: with the cursor at 0, [handleRemoveLastGarment] returns the
    state it was given: no cell changes. *)
Theorem handleRemoveLastGarment_at_base (s : AppState) :
  currentOutfitIndex s = 0 → handleRemoveLastGarment s = s.
Proof. intros H. unfold handleRemoveLastGarment. rewrite H. reflexivity. Qed.

Lemma handleRemoveLastGarment_at_base_witness :
  currentOutfitIndex (handleModelFinalized modelPhoto initialState) = 0
  ∧ handleRemoveLastGarment (handleModelFinalized modelPhoto initialState)
    = handleModelFinalized modelPhoto initialState.
Proof.
  split; [reflexivity|].
  apply (handleRemoveLastGarment_at_base (handleModelFinalized modelPhoto initialState)).
  reflexivity.
Defined.

(** ** Invariants of the history *)

Lemma sameGarment_lookup next garmentInfo :
  sameGarment next garmentInfo = true →
  ∃ layer i, next = Some layer ∧ garmentId layer = Some i ∧ i = id garmentInfo.
Proof.
  destruct next as [layer|]; [|discriminate]. unfold sameGarment.
  destruct (garmentId layer) as [i|] eqn:E; [|discriminate].
  intros H%String.eqb_eq. exists layer, i. auto.
Qed.

Section HistoryInvariants.

Variable friendly : string → string → string.

Lemma handleModelFinalized_inv url s :
  cursorInRange (handleModelFinalized url s) ∧ baseFirst (handleModelFinalized url s).
Proof. split; [apply Nat.lt_0_1|reflexivity]. Qed.

Lemma handleGarmentSelect_inv reply file info s :
  cursorInRange s ∧ baseFirst s →
  cursorInRange (handleGarmentSelect friendly reply file info s).1
  ∧ baseFirst (handleGarmentSelect friendly reply file info s).1.
Proof.
  unfold cursorInRange, baseFirst. intros [Hc Hb].
  unfold handleGarmentSelect.
  destruct (displayImageUrl s) as [shown|]; [|done].
  destruct (negb (truthy shown) || isLoading s); [done|].
  destruct (sameGarment _ info) eqn:Hsame.
  - simpl. split; [|done].
    apply sameGarment_lookup in Hsame as (layer & i & Hnext & _).
    apply lookup_lt_Some in Hnext. lia.
  - destruct (generateVirtualTryOnImage reply); simpl; [|done].
    rewrite length_app, length_take. simpl. split; [lia|].
    rewrite lookup_app_l by (rewrite length_take; lia).
    rewrite lookup_take_lt by lia. done.
Qed.

Lemma handleRemoveLastGarment_inv s :
  cursorInRange s ∧ baseFirst s →
  cursorInRange (handleRemoveLastGarment s) ∧ baseFirst (handleRemoveLastGarment s).
Proof.
  unfold cursorInRange, baseFirst, handleRemoveLastGarment. intros [Hc Hb].
  destruct (0 <? currentOutfitIndex s)%nat; simpl; [split; [lia|done]|done].
Qed.

Lemma handlePoseSelect_inv reply newIndex s :
  cursorInRange s ∧ baseFirst s →
  cursorInRange (handlePoseSelect friendly reply newIndex s).1
  ∧ baseFirst (handlePoseSelect friendly reply newIndex s).1.
Proof.
  unfold cursorInRange, baseFirst. intros [Hc Hb].
  unfold handlePoseSelect.
  destruct (_ || _); [done|].
  destruct (outfitHistory s !! currentOutfitIndex s) as [currentLayer|]; [|done].
  destruct (truthyOpt _); [done|].
  destruct (head _) as [base|]; [|done].
  destruct (negb (truthy base)); [done|].
  destruct (generatePoseVariation reply); simpl; [|done].
  rewrite length_alter. split; [done|].
  destruct (decide (currentOutfitIndex s = 0)) as [->|Hne].
  - rewrite list_lookup_alter_eq.
    destruct (outfitHistory s !! 0); simpl in *; [done|discriminate].
  - by rewrite list_lookup_alter_ne.
Qed.

Lemma handleGenerateVideo_history hasKey outcome model s :
  outfitHistory (handleGenerateVideo friendly hasKey outcome model s).1 = outfitHistory s
  ∧ currentOutfitIndex (handleGenerateVideo friendly hasKey outcome model s).1
    = currentOutfitIndex s.
Proof.
  unfold handleGenerateVideo.
  destruct (displayImageUrl s) as [shown|]; [|done].
  destruct (_ || _); [done|]. destruct outcome; done.
Qed.

Lemma step_inv e s :
  cursorInRange s ∧ baseFirst s →
  cursorInRange (step friendly e s) ∧ baseFirst (step friendly e s).
Proof.
  destruct e as [url|reply file info| |reply newIndex|hasKey outcome model]; simpl.
  - intros _. apply handleModelFinalized_inv.
  - apply handleGarmentSelect_inv.
  - apply handleRemoveLastGarment_inv.
  - apply handlePoseSelect_inv.
  - unfold cursorInRange, baseFirst.
    destruct (handleGenerateVideo_history hasKey outcome model s) as [-> ->]. done.
Qed.

Lemma run_inv es s :
  cursorInRange s ∧ baseFirst s →
  cursorInRange (run friendly es s) ∧ baseFirst (run friendly es s).
Proof.
  revert s. induction es as [|e es IH]; intros s H; [exact H|].
  apply IH, step_inv, H.
Qed.

(** When the handlers run one after the other: after
    [handleModelFinalized], whatever the state it was called on, and
    after any further sequence of model finalizations, garment
    selections (answered by an image or by a failure), removals of the
    last garment, pose selections and video generations, the cursor is
    below the length of the history, and the history has a first layer
    whose garment is [null]. *)
Theorem cursor_in_range_base_first (url : string) (s0 : AppState) (es : list Event) :
  currentOutfitIndex (run friendly es (handleModelFinalized url s0))
  < length (outfitHistory (run friendly es (handleModelFinalized url s0)))
  ∧ garment <$> outfitHistory (run friendly es (handleModelFinalized url s0)) !! 0
    = Some None.
Proof. apply run_inv, handleModelFinalized_inv. Qed.

End HistoryInvariants.

(** ** Pose images are never missing *)

Lemma objectGet_Forall (P : string → Prop) o k v :
  Forall (fun entry => P entry.2) o → objectGet o k = Some v → P v.
Proof.
  induction 1 as [|[k' v'] o Hv _ IH]; simpl; [discriminate|].
  destruct (String.eqb k' k); [|exact IH]. by intros [= <-].
Qed.

Lemma objectSet_nonempty o k v : objectSet o k v ≠ [].
Proof. destruct o as [|[k' v'] o]; simpl; [|destruct (String.eqb k' k)]; discriminate. Qed.

Lemma objectSet_Forall (P : string → Prop) o k v :
  Forall (fun entry => P entry.2) o → P v →
  Forall (fun entry => P entry.2) (objectSet o k v).
Proof.
  intros Ho Hv. induction Ho as [|[k' v'] o Hv' Ho IH]; simpl.
  - by constructor.
  - destruct (String.eqb k' k); by constructor.
Qed.

(** [{ ...o, [k]: v }] keeps every other entry of [o]. *)
Lemma objectGet_objectSet_ne o k v k' :
  k' ≠ k → objectGet (objectSet o k v) k' = objectGet o k'.
Proof.
  intros Hne. induction o as [|[k0 v0] o IH]; simpl.
  - destruct (String.eqb_spec k k'); [congruence|reflexivity].
  - destruct (String.eqb_spec k0 k) as [->|]; simpl.
    + destruct (String.eqb_spec k k'); [congruence|reflexivity].
    + by rewrite IH.
Qed.

Lemma objectGet_objectSet_eq o k v : objectGet (objectSet o k v) k = Some v.
Proof.
  induction o as [|[k0 v0] o IH]; simpl.
  - by rewrite String.eqb_refl.
  - destruct (String.eqb_spec k0 k) as [->|Hne]; simpl.
    + by rewrite String.eqb_refl.
    + destruct (String.eqb_spec k0 k); [contradiction|exact IH].
Qed.

Lemma display_present s :
  cursorInRange s → imagesPresent s →
  ∃ shown, displayImageUrl s = Some shown ∧ truthy shown = true.
Proof.
  unfold cursorInRange, imagesPresent, displayImageUrl. intros Hc Himg.
  destruct (lookup_lt_is_Some_2 _ _ Hc) as [layer Hlayer].
  destruct (outfitHistory s) as [|l0 rest] eqn:Hh; [simpl in Hc; lia|].
  rewrite Hlayer.
  destruct (proj1 (Forall_lookup _ _) Himg _ _ Hlayer) as [Hne Hall].
  destruct (objectGet (poseImages layer) _) as [image|] eqn:Hget.
  - exists image. split; [reflexivity|].
    exact (objectGet_Forall (fun v => truthy v = true) _ _ _ Hall Hget).
  - destruct (poseImages layer) as [|[k v] o]; [done|].
    exists v. split; [reflexivity|]. by inversion Hall.
Qed.

Section ImagesInvariant.

Variable friendly : string → string → string.

Lemma handleModelFinalized_images url s :
  truthy url = true → imagesPresent (handleModelFinalized url s).
Proof.
  intros Hurl. unfold imagesPresent. simpl.
  repeat constructor; [discriminate|exact Hurl].
Qed.

Lemma handleGarmentSelect_images reply file info s :
  imagesPresent s → imagesPresent (handleGarmentSelect friendly reply file info s).1.
Proof.
  unfold imagesPresent, handleGarmentSelect. intros Himg.
  destruct (displayImageUrl s) as [shown|]; [|done].
  destruct (negb (truthy shown) || isLoading s); [done|].
  destruct (sameGarment _ info); [done|].
  destruct (generateVirtualTryOnImage reply) as [image|err] eqn:Hgen; simpl; [|done].
  apply Forall_app. split; [by apply Forall_take|].
  repeat constructor; [discriminate|]. simpl.
  exact (imageOperation_Return _ _ Hgen).
Qed.

Lemma handlePoseSelect_images reply newIndex s :
  imagesPresent s → imagesPresent (handlePoseSelect friendly reply newIndex s).1.
Proof.
  unfold imagesPresent, handlePoseSelect. intros Himg.
  destruct (_ || _); [done|].
  destruct (outfitHistory s !! currentOutfitIndex s) as [currentLayer|]; [|done].
  destruct (truthyOpt _); [done|].
  destruct (head _) as [base|]; [|done].
  destruct (negb (truthy base)); [done|].
  destruct (generatePoseVariation reply) as [image|err] eqn:Hgen; simpl; [|done].
  apply Forall_alter; [exact Himg|].
  intros layer _ [Hne Hall]. split; simpl.
  - apply objectSet_nonempty.
  - apply (objectSet_Forall (fun v => truthy v = true)); [exact Hall|].
    exact (imageOperation_Return _ _ Hgen).
Qed.

Lemma step_images e s :
  offered e → imagesPresent s → imagesPresent (step friendly e s).
Proof.
  destruct e as [url|reply file info| |reply newIndex|hasKey outcome model]; simpl.
  - intros Hurl _. by apply handleModelFinalized_images.
  - intros _. apply handleGarmentSelect_images.
  - intros _. unfold imagesPresent, handleRemoveLastGarment.
    by destruct (0 <? currentOutfitIndex s)%nat.
  - intros _. apply handlePoseSelect_images.
  - intros _. unfold imagesPresent.
    by destruct (handleGenerateVideo_history friendly hasKey outcome model s) as [-> _].
Qed.

Lemma run_images es s :
  Forall offered es → imagesPresent s → imagesPresent (run friendly es s).
Proof.
  intros Hes. revert s. induction Hes as [|e es He _ IH]; intros s H; [exact H|].
  apply IH, step_images; assumption.
Qed.

(** Every state of a session that starts with a model photo points at
    a layer that has images. *)
Lemma session_wellFormed url s0 es :
  truthy url = true → Forall offered es →
  cursorInRange (run friendly es (handleModelFinalized url s0))
  ∧ imagesPresent (run friendly es (handleModelFinalized url s0)).
Proof.
  intros Hurl Hes. split.
  - apply run_inv, handleModelFinalized_inv.
  - apply run_images; [exact Hes|by apply handleModelFinalized_images].
Qed.

End ImagesInvariant.

(** ** Garment selection: generation, undo and redo *)

Section GarmentSelection.

Variable friendly : string → string → string.

(** The fast path: the layer after the cursor already wears the item. *)
Lemma handleGarmentSelect_redo reply file info s shown :
  displayImageUrl s = Some shown → truthy shown = true → isLoading s = false →
  sameGarment (outfitHistory s !! (currentOutfitIndex s + 1)) info = true →
  handleGarmentSelect friendly reply file info s
  = (s |> setCurrentOutfitIndex (fun prev => prev + 1) |> setCurrentPoseIndex (to 0), []).
Proof.
  intros Hshown Htruthy Hidle Hsame. unfold handleGarmentSelect.
  rewrite Hshown, Htruthy, Hidle, Hsame. reflexivity.
Qed.

(** The slow path when the service returns an image. *)
Lemma handleGarmentSelect_generated reply file info s shown image :
  displayImageUrl s = Some shown → truthy shown = true → isLoading s = false →
  sameGarment (outfitHistory s !! (currentOutfitIndex s + 1)) info = false →
  generateVirtualTryOnImage reply = Return image →
  (handleGarmentSelect friendly reply file info s).2 = [callVirtualTryOn shown file]
  ∧ outfitHistory (handleGarmentSelect friendly reply file info s).1
    = take (currentOutfitIndex s + 1) (outfitHistory s)
      ++ [ {| garment := Some info;
              poseImages := [(poseInstructionAt (currentPoseIndex s), image)] |} ]
  ∧ currentOutfitIndex (handleGarmentSelect friendly reply file info s).1
    = currentOutfitIndex s + 1
  ∧ currentPoseIndex (handleGarmentSelect friendly reply file info s).1
    = currentPoseIndex s
  ∧ isLoading (handleGarmentSelect friendly reply file info s).1 = false
  ∧ isVideoLoading (handleGarmentSelect friendly reply file info s).1 = isVideoLoading s
  ∧ videoUrls (handleGarmentSelect friendly reply file info s).1 = [].
Proof.
  intros Hshown Htruthy Hidle Hsame Hgen. unfold handleGarmentSelect.
  rewrite Hshown, Htruthy, Hidle, Hsame, Hgen. repeat split.
Qed.

(** After a selection that went through, by either path, the cursor
    has advanced to a layer that wears the item. *)
Lemma handleGarmentSelect_applied reply file info s :
  cursorInRange s → imagesPresent s → isLoading s = false →
  sameGarment (outfitHistory s !! (currentOutfitIndex s + 1)) info = true
  ∨ (∃ image, generateVirtualTryOnImage reply = Return image) →
  isLoading (handleGarmentSelect friendly reply file info s).1 = false
  ∧ currentOutfitIndex (handleGarmentSelect friendly reply file info s).1
    = currentOutfitIndex s + 1
  ∧ ∃ layer,
      outfitHistory (handleGarmentSelect friendly reply file info s).1
        !! (currentOutfitIndex s + 1) = Some layer
      ∧ garmentId layer = Some (id info).
Proof.
  intros Hc Himg Hidle Hok.
  destruct (display_present s Hc Himg) as (shown & Hshown & Htruthy).
  destruct (sameGarment (outfitHistory s !! (currentOutfitIndex s + 1)) info) eqn:Hsame.
  - rewrite (handleGarmentSelect_redo _ _ _ _ _ Hshown Htruthy Hidle Hsame). simpl.
    split; [exact Hidle|]. split; [reflexivity|].
    apply sameGarment_lookup in Hsame as (layer & i & Hnext & Hid & ->).
    by exists layer.
  - destruct Hok as [?|[image Hgen]]; [discriminate|].
    destruct (handleGarmentSelect_generated reply file info s shown image)
      as (_ & -> & -> & _ & -> & _); try assumption.
    split; [reflexivity|]. split; [reflexivity|].
    eexists. split.
    + apply list_lookup_middle. rewrite length_take. unfold cursorInRange in Hc. lia.
    + reflexivity.
Qed.

(** Undo, then the item of the undone layer again: the fast path. *)
Lemma redo_after_undo reply file info s layer :
  cursorInRange s → imagesPresent s → isLoading s = false →
  0 < currentOutfitIndex s →
  outfitHistory s !! currentOutfitIndex s = Some layer →
  garmentId layer = Some (id info) →
  handleGarmentSelect friendly reply file info (handleRemoveLastGarment s)
  = (handleRemoveLastGarment s
       |> setCurrentOutfitIndex (fun prev => prev + 1)
       |> setCurrentPoseIndex (to 0),
     []).
Proof.
  intros Hc Himg Hidle Hpos Hlayer Hid.
  assert (cursorInRange (handleRemoveLastGarment s)) as Hc'.
  { unfold cursorInRange, handleRemoveLastGarment in *.
    destruct (0 <? currentOutfitIndex s)%nat; simpl; lia. }
  assert (imagesPresent (handleRemoveLastGarment s)) as Himg'.
  { unfold imagesPresent, handleRemoveLastGarment in *.
    by destruct (0 <? currentOutfitIndex s)%nat. }
  destruct (display_present _ Hc' Himg') as (shown & Hshown & Htruthy).
  apply (handleGarmentSelect_redo _ _ _ _ shown); try assumption.
  - unfold handleRemoveLastGarment. by destruct (0 <? currentOutfitIndex s)%nat.
  - unfold handleRemoveLastGarment.
    destruct (Nat.ltb_spec 0 (currentOutfitIndex s)); [|lia]. simpl.
    replace (currentOutfitIndex s - 1 + 1) with (currentOutfitIndex s) by lia.
    rewrite Hlayer. unfold sameGarment. rewrite Hid. apply String.eqb_refl.
Qed.

(** When the handlers run one after the other: in a run started with
    a model photo, after a garment selection that went through (by
    generation or by the fast path) and [handleRemoveLastGarment],
    selecting an item with the same id issues no service call, puts the
    cursor back where it was before the undo, and leaves the history as
    it was: the layer under the cursor is the layer that was there,
    with the same pose images. *)
Theorem undo_then_same_garment_is_free
    (url : string) (s0 : AppState) (es : list Event) (s : AppState)
    (reply : ApiReply) (file : File) (G : WardrobeItem)
    (reply' : ApiReply) (file' : File) (G' : WardrobeItem) :
  truthy url = true → Forall offered es →
  s = run friendly es (handleModelFinalized url s0) →
  isLoading s = false →
  sameGarment (outfitHistory s !! (currentOutfitIndex s + 1)) G = true
  ∨ (∃ image, generateVirtualTryOnImage reply = Return image) →
  id G' = id G →
  let applied := (handleGarmentSelect friendly reply file G s).1 in
  let undone := handleRemoveLastGarment applied in
  let redone := handleGarmentSelect friendly reply' file' G' undone in
  currentOutfitIndex applied = currentOutfitIndex s + 1
  ∧ currentOutfitIndex undone = currentOutfitIndex s
  ∧ redone.2 = []
  ∧ currentOutfitIndex redone.1 = currentOutfitIndex applied
  ∧ outfitHistory redone.1 = outfitHistory applied
  ∧ ∃ layer,
      outfitHistory applied !! currentOutfitIndex applied = Some layer
      ∧ garmentId layer = Some (id G)
      ∧ outfitHistory redone.1 !! currentOutfitIndex redone.1 = Some layer.
Proof.
  intros Hurl Hes -> Hidle Hok Hid applied undone redone.
  destruct (session_wellFormed friendly url s0 es Hurl Hes) as [Hc Himg].
  set (s := run friendly es (handleModelFinalized url s0)) in *.
  destruct (handleGarmentSelect_applied reply file G s Hc Himg Hidle Hok)
    as (Hidle' & Hcursor & layer & Hlayer & Hwears).
  fold applied in Hidle', Hcursor, Hlayer.
  assert (cursorInRange applied) as Hc'.
  { unfold cursorInRange. rewrite Hcursor. by apply lookup_lt_Some in Hlayer. }
  assert (imagesPresent applied) as Himg'
    by apply handleGarmentSelect_images, Himg.
  rewrite <- Hcursor in Hlayer.
  assert (redone
          = (undone |> setCurrentOutfitIndex (fun prev => prev + 1)
                    |> setCurrentPoseIndex (to 0), [])) as Hredone.
  { apply (redo_after_undo reply' file' G' applied layer); try assumption.
    - lia.
    - by rewrite Hid. }
  assert (currentOutfitIndex undone = currentOutfitIndex s
          ∧ outfitHistory undone = outfitHistory applied) as [Hundone Hkept].
  { unfold undone, handleRemoveLastGarment.
    destruct (Nat.ltb_spec 0 (currentOutfitIndex applied)); [|lia].
    simpl. split; [lia|reflexivity]. }
  rewrite Hredone. simpl. rewrite Hundone, Hkept, Hcursor.
  repeat split. exists layer. rewrite <- Hcursor. auto.
Qed.

(** C4 (amended): in a session started with a model photo, with the
    cursor at [c > 0], after [handleRemoveLastGarment] and a garment
    selection that generates a layer for an item whose id differs from
    that of the undone layer, the history is its first [c] layers
    followed by the new layer: the undone layer and everything after it
    are gone, the history has [c + 1] layers, and the cursor is [c]
    again. *)
Theorem other_garment_after_undo_replaces_tail
    (url : string) (s0 : AppState) (es : list Event) (s : AppState)
    (reply : ApiReply) (file : File) (G : WardrobeItem) (image : string) :
  truthy url = true → Forall offered es →
  s = run friendly es (handleModelFinalized url s0) →
  isLoading s = false →
  0 < currentOutfitIndex s →
  sameGarment (outfitHistory s !! currentOutfitIndex s) G = false →
  generateVirtualTryOnImage reply = Return image →
  let undone := handleRemoveLastGarment s in
  let replaced := handleGarmentSelect friendly reply file G undone in
  replaced.2 ≠ []
  ∧ length (outfitHistory replaced.1) = currentOutfitIndex s + 1
  ∧ currentOutfitIndex replaced.1 = currentOutfitIndex s
  ∧ outfitHistory replaced.1
    = take (currentOutfitIndex s) (outfitHistory s)
      ++ [ {| garment := Some G; poseImages := [(poseInstructionAt 0, image)] |} ].
Proof.
  intros Hurl Hes -> Hidle Hpos Hother Hgen undone replaced.
  destruct (session_wellFormed friendly url s0 es Hurl Hes) as [Hc Himg].
  set (s := run friendly es (handleModelFinalized url s0)) in *.
  assert (undone = s |> setCurrentOutfitIndex (fun prevIndex => prevIndex - 1)
                     |> setCurrentPoseIndex (to 0)
                     |> setVideoUrls (to [])) as Hundone.
  { unfold undone, handleRemoveLastGarment.
    by destruct (Nat.ltb_spec 0 (currentOutfitIndex s)); [|lia]. }
  assert (currentOutfitIndex undone + 1 = currentOutfitIndex s) as Hcursor
    by (rewrite Hundone; simpl; lia).
  assert (cursorInRange undone) as Hc'.
  { unfold cursorInRange in *. rewrite Hundone. simpl. lia. }
  assert (imagesPresent undone) as Himg' by (by rewrite Hundone).
  destruct (display_present _ Hc' Himg') as (shown & Hshown & Htruthy).
  destruct (handleGarmentSelect_generated reply file G undone shown image)
    as (Hcalls & Hhistory & Hindex & _); try assumption.
  { by rewrite Hundone. }
  { rewrite Hcursor. by rewrite Hundone. }
  fold replaced in Hcalls, Hhistory, Hindex.
  rewrite Hcalls, Hhistory, Hindex, Hcursor.
  assert (outfitHistory undone = outfitHistory s) as -> by (by rewrite Hundone).
  assert (currentPoseIndex undone = 0) as -> by (by rewrite Hundone).
  split; [discriminate|]. split; [|split; reflexivity].
  rewrite length_app, length_take. unfold cursorInRange in Hc. simpl. lia.
Qed.



End GarmentSelection.

(** ** Pose selection *)

Section PoseSelection.

Variable friendly : string → string → string.

(** C5: when the active layer has no image for the pose selected and
    the pose service fails, the pose index after [handlePoseSelect] is
    the one before it and the history, with the pose images of the
    active layer, is unchanged; if the request was made, the error is
    stored and the loading flag is down. *)
Theorem failed_pose_change_is_rolled_back
    (reply : ApiReply) (newIndex : nat) (s : AppState)
    (currentLayer : OutfitLayer) (err : string) :
  outfitHistory s !! currentOutfitIndex s = Some currentLayer →
  truthyOpt (objectGet (poseImages currentLayer) (poseInstructionAt newIndex)) = false →
  generatePoseVariation reply = Throw err →
  currentPoseIndex (handlePoseSelect friendly reply newIndex s).1 = currentPoseIndex s
  ∧ outfitHistory (handlePoseSelect friendly reply newIndex s).1 = outfitHistory s
  ∧ outfitHistory (handlePoseSelect friendly reply newIndex s).1
      !! currentOutfitIndex (handlePoseSelect friendly reply newIndex s).1
    = Some currentLayer
  ∧ ((handlePoseSelect friendly reply newIndex s).2 ≠ [] →
     error (handlePoseSelect friendly reply newIndex s).1
     = Some (friendly err "ไม่สามารถเปลี่ยนท่าทางได้")
     ∧ isLoading (handlePoseSelect friendly reply newIndex s).1 = false).
Proof.
  intros Hlayer Hmissing Hfail. unfold handlePoseSelect.
  destruct (_ || _); [done|].
  rewrite Hlayer, Hmissing.
  destruct (head _) as [base|]; [|done].
  destruct (negb (truthy base)); [done|].
  rewrite Hfail. simpl. done.
Qed.

(** A pose that is already there is switched to without a request,
    and the video list stays. *)
Lemma handlePoseSelect_cached reply newIndex s currentLayer :
  isLoading s = false → newIndex ≠ currentPoseIndex s →
  outfitHistory s !! currentOutfitIndex s = Some currentLayer →
  truthyOpt (objectGet (poseImages currentLayer) (poseInstructionAt newIndex)) = true →
  handlePoseSelect friendly reply newIndex s = (s |> setCurrentPoseIndex (to newIndex), []).
Proof.
  intros Hidle Hnew Hlayer Hcached. unfold handlePoseSelect.
  rewrite Hidle, Hlayer, Hcached.
  destruct (Nat.eqb_spec newIndex (currentPoseIndex s)); [contradiction|].
  apply lookup_lt_Some in Hlayer.
  destruct (Nat.eqb_spec (length (outfitHistory s)) 0); [lia|reflexivity].
Qed.

(** When the pose service returns an image, the active layer gets it
    under the pose selected and keeps its other pose images; the pose
    index is the one selected. *)
Lemma handlePoseSelect_generated reply newIndex s currentLayer base image :
  isLoading s = false → newIndex ≠ currentPoseIndex s →
  outfitHistory s !! currentOutfitIndex s = Some currentLayer →
  truthyOpt (objectGet (poseImages currentLayer) (poseInstructionAt newIndex)) = false →
  head (objectValues (poseImages currentLayer)) = Some base → truthy base = true →
  generatePoseVariation reply = Return image →
  (handlePoseSelect friendly reply newIndex s).2
  = [callPoseVariation base (poseInstructionAt newIndex)]
  ∧ currentPoseIndex (handlePoseSelect friendly reply newIndex s).1 = newIndex
  ∧ videoUrls (handlePoseSelect friendly reply newIndex s).1 = []
  ∧ ∃ updatedLayer,
      outfitHistory (handlePoseSelect friendly reply newIndex s).1 !! currentOutfitIndex s
      = Some updatedLayer
      ∧ garment updatedLayer = garment currentLayer
      ∧ objectGet (poseImages updatedLayer) (poseInstructionAt newIndex) = Some image
      ∧ ∀ other, other ≠ poseInstructionAt newIndex →
          objectGet (poseImages updatedLayer) other
          = objectGet (poseImages currentLayer) other.
Proof.
  intros Hidle Hnew Hlayer Hmissing Hbase Htruthy Hgen. unfold handlePoseSelect.
  rewrite Hidle, Hlayer, Hmissing, Hbase, Htruthy, Hgen.
  destruct (Nat.eqb_spec newIndex (currentPoseIndex s)); [contradiction|].
  pose proof (lookup_lt_Some _ _ _ Hlayer) as Hlen.
  destruct (Nat.eqb_spec (length (outfitHistory s)) 0); [lia|]. simpl.
  split; [reflexivity|]. split; [reflexivity|]. split; [reflexivity|].
  rewrite list_lookup_alter_eq, Hlayer. simpl.
  eexists. split; [reflexivity|]. simpl. split; [reflexivity|]. split.
  - apply objectGet_objectSet_eq.
  - intros other Hother. by apply objectGet_objectSet_ne.
Qed.

End PoseSelection.

(** ** The video list *)

Section Videos.

Variable friendly : string → string → string.

Lemma sliceLast_length {A : Type} (n : nat) (l : list A) : length (sliceLast n l) ≤ n.
Proof. unfold sliceLast. rewrite length_drop. lia. Qed.

Lemma step_videoUrls e s :
  videoUrls (step friendly e s) = videoUrls s
  ∨ videoUrls (step friendly e s) = []
  ∨ ∃ videoUrl, videoUrls (step friendly e s) = sliceLast 2 (videoUrls s ++ [videoUrl]).
Proof.
  destruct e as [url|reply file info| |reply newIndex|hasKey outcome model]; simpl.
  - by left.
  - unfold handleGarmentSelect.
    destruct (displayImageUrl s) as [shown|]; [|by left].
    destruct (_ || _); [by left|].
    destruct (sameGarment _ info); [by left|].
    destruct (generateVirtualTryOnImage reply); simpl; [by right; left|by left].
  - unfold handleRemoveLastGarment.
    destruct (0 <? currentOutfitIndex s)%nat; simpl; [by right; left|by left].
  - unfold handlePoseSelect.
    destruct (_ || _); [by left|].
    destruct (outfitHistory s !! currentOutfitIndex s) as [currentLayer|]; [|by left].
    destruct (truthyOpt _); [by left|].
    destruct (head _) as [base|]; [|by left].
    destruct (negb (truthy base)); [by left|].
    destruct (generatePoseVariation reply); simpl; [by right; left|by left].
  - unfold handleGenerateVideo.
    destruct (displayImageUrl s) as [shown|]; [|by left].
    destruct (_ || _); [by left|].
    destruct outcome as [videoUrl|errorMsg]; simpl; [|by left].
    right; right. by exists videoUrl.
Qed.

Lemma run_videoUrls es s :
  length (videoUrls s) ≤ 2 → length (videoUrls (run friendly es s)) ≤ 2.
Proof.
  revert s. induction es as [|e es IH]; intros s H; [exact H|].
  apply IH. destruct (step_videoUrls e s) as [-> | [-> | [videoUrl ->]]].
  - exact H.
  - simpl. lia.
  - apply sliceLast_length.
Qed.

(** C6: along any sequence of events, successful video generations
    among them, a video list of at most 2 entries keeps at most 2
    entries; a video generation that succeeds stores the last two of
    the old list followed by the new clip, so that on a list of two the
    older one is dropped and the newer one stays in front of the new
    clip. *)
Theorem video_list_keeps_last_two (es : list Event) (s : AppState) :
  length (videoUrls s) ≤ 2 →
  length (videoUrls (run friendly es s)) ≤ 2
  ∧ ∀ hasKey videoUrl model shown,
      displayImageUrl (run friendly es s) = Some shown → truthy shown = true →
      isVideoLoading (run friendly es s) = false →
      videoUrls (handleGenerateVideo friendly hasKey (Return videoUrl) model
                   (run friendly es s)).1
      = sliceLast 2 (videoUrls (run friendly es s) ++ [videoUrl])
      ∧ length (videoUrls (handleGenerateVideo friendly hasKey (Return videoUrl) model
                             (run friendly es s)).1) ≤ 2
      ∧ ∀ older newer,
          videoUrls (run friendly es s) = [older; newer] →
          videoUrls (handleGenerateVideo friendly hasKey (Return videoUrl) model
                       (run friendly es s)).1
          = [newer; videoUrl].
Proof.
  intros Hlen. split; [by apply run_videoUrls|].
  intros hasKey videoUrl model shown Hshown Htruthy Hidle.
  assert (videoUrls (handleGenerateVideo friendly hasKey (Return videoUrl) model
                       (run friendly es s)).1
          = sliceLast 2 (videoUrls (run friendly es s) ++ [videoUrl])) as ->.
  { unfold handleGenerateVideo. by rewrite Hshown, Htruthy, Hidle. }
  split; [reflexivity|]. split; [apply sliceLast_length|].
  by intros older newer ->.
Qed.

(** The paths that generate an image, and the undo, empty the video
    list. *)
Lemma generation_clears_videos reply file info s shown image :
  displayImageUrl s = Some shown → truthy shown = true → isLoading s = false →
  sameGarment (outfitHistory s !! (currentOutfitIndex s + 1)) info = false →
  generateVirtualTryOnImage reply = Return image →
  videoUrls (handleGarmentSelect friendly reply file info s).1 = [].
Proof.
  intros. by destruct (handleGarmentSelect_generated friendly reply file info s shown image)
    as (_ & _ & _ & _ & _ & _ & ->).
Qed.

Lemma undo_clears_videos s :
  0 < currentOutfitIndex s → videoUrls (handleRemoveLastGarment s) = [].
Proof.
  intros H. unfold handleRemoveLastGarment.
  by destruct (Nat.ltb_spec 0 (currentOutfitIndex s)); [|lia].
Qed.

(** The two early returns leave the video list as it is. *)
Lemma redo_keeps_videos reply file info s shown :
  displayImageUrl s = Some shown → truthy shown = true → isLoading s = false →
  sameGarment (outfitHistory s !! (currentOutfitIndex s + 1)) info = true →
  videoUrls (handleGarmentSelect friendly reply file info s).1 = videoUrls s.
Proof. intros. by erewrite handleGarmentSelect_redo. Qed.

Lemma cached_pose_keeps_videos reply newIndex s currentLayer :
  isLoading s = false → newIndex ≠ currentPoseIndex s →
  outfitHistory s !! currentOutfitIndex s = Some currentLayer →
  truthyOpt (objectGet (poseImages currentLayer) (poseInstructionAt newIndex)) = true →
  videoUrls (handlePoseSelect friendly reply newIndex s).1 = videoUrls s.
Proof. intros. by erewrite handlePoseSelect_cached. Qed.

End Videos.

(** ** Worked examples *)

Lemma undo_then_same_garment_is_free_witness :
  currentOutfitIndex wearingTee = 1
  ∧ currentOutfitIndex (handleRemoveLastGarment wearingTee) = 0
  ∧ (handleGarmentSelect sampleFriendly (Rejected "offline") teeFile tee
       (handleRemoveLastGarment wearingTee)).2 = []
  ∧ currentOutfitIndex
      (handleGarmentSelect sampleFriendly (Rejected "offline") teeFile tee
         (handleRemoveLastGarment wearingTee)).1 = 1
  ∧ outfitHistory
      (handleGarmentSelect sampleFriendly (Rejected "offline") teeFile tee
         (handleRemoveLastGarment wearingTee)).1 = outfitHistory wearingTee.
Proof.
  destruct (undo_then_same_garment_is_free sampleFriendly modelPhoto initialState []
              bareModel (pngReply "I1") teeFile tee (Rejected "offline") teeFile tee)
    as (Happlied & Hundone & Hcalls & Hcursor & Hhistory & _).
  - reflexivity.
  - constructor.
  - reflexivity.
  - reflexivity.
  - right. by exists "data:image/png;base64,I1".
  - reflexivity.
  - exact (conj Happlied (conj Hundone (conj Hcalls (conj Hcursor Hhistory)))).
Defined.



(** C4, as stated, fails: with the cursor at 1, undo and a cap
    generated in place of the tee leave a history of 2 layers, not 1. *)
Lemma other_garment_after_undo_length :
  currentOutfitIndex wearingTee = 1
  ∧ currentOutfitIndex (handleRemoveLastGarment wearingTee) = 0
  ∧ (garmentId <$> outfitHistory wearingTee !! 1) = Some (Some "gemini-tee")
  ∧ id cap = "black-cap"
  ∧ length (outfitHistory
              (handleGarmentSelect sampleFriendly (pngReply "I3") capFile cap
                 (handleRemoveLastGarment wearingTee)).1) = 2
  ∧ (garmentId <$> outfitHistory
                     (handleGarmentSelect sampleFriendly (pngReply "I3") capFile cap
                        (handleRemoveLastGarment wearingTee)).1 !! 1)
    = Some (Some "black-cap").
Proof. repeat split. Qed.

Lemma other_garment_after_undo_replaces_tail_witness :
  currentOutfitIndex wearingTee = 1
  ∧ length (outfitHistory
              (handleGarmentSelect sampleFriendly (pngReply "I3") capFile cap
                 (handleRemoveLastGarment wearingTee)).1)
    = currentOutfitIndex wearingTee + 1
  ∧ currentOutfitIndex
      (handleGarmentSelect sampleFriendly (pngReply "I3") capFile cap
         (handleRemoveLastGarment wearingTee)).1
    = currentOutfitIndex wearingTee.
Proof.
  destruct (other_garment_after_undo_replaces_tail sampleFriendly modelPhoto initialState
              [GarmentSelect (pngReply "I1") teeFile tee]
              wearingTee (pngReply "I3") capFile cap "data:image/png;base64,I3")
    as (_ & Hlength & Hcursor & _).
  - reflexivity.
  - repeat constructor.
  - reflexivity.
  - reflexivity.
  - apply Nat.lt_0_1.
  - reflexivity.
  - reflexivity.
  - exact (conj eq_refl (conj Hlength Hcursor)).
Defined.

Lemma failed_pose_change_is_rolled_back_witness :
  (handlePoseSelect sampleFriendly (Rejected "quota exceeded") 2 wearingTee).2
  = [callPoseVariation "data:image/png;base64,I1" "หันข้างเต็มตัว"]
  ∧ currentPoseIndex (handlePoseSelect sampleFriendly (Rejected "quota exceeded") 2 wearingTee).1
    = currentPoseIndex wearingTee
  ∧ outfitHistory (handlePoseSelect sampleFriendly (Rejected "quota exceeded") 2 wearingTee).1
    = outfitHistory wearingTee
  ∧ error (handlePoseSelect sampleFriendly (Rejected "quota exceeded") 2 wearingTee).1
    = Some "ไม่สามารถเปลี่ยนท่าทางได้: quota exceeded".
Proof.
  destruct (failed_pose_change_is_rolled_back sampleFriendly (Rejected "quota exceeded") 2
              wearingTee
              {| garment := Some tee;
                 poseImages := [(poseInstructionAt 0, "data:image/png;base64,I1")] |}
              "quota exceeded")
    as (Hpose & Hhistory & _ & Herror).
  - reflexivity.
  - reflexivity.
  - reflexivity.
  - split; [reflexivity|]. split; [exact Hpose|]. split; [exact Hhistory|].
    apply Herror. discriminate.
Defined.

Lemma video_list_keeps_last_two_witness :
  length (videoUrls wearingTee) ≤ 2
  ∧ videoUrls
      (run sampleFriendly
         [GenerateVideo true (Return "blob:clip-1") veo_fast;
          GenerateVideo false (Return "blob:clip-2") veo_pro]
         wearingTee)
    = ["blob:clip-1"; "blob:clip-2"]
  ∧ videoUrls
      (handleGenerateVideo sampleFriendly true (Return "blob:clip-3") veo_fast
         (run sampleFriendly
            [GenerateVideo true (Return "blob:clip-1") veo_fast;
             GenerateVideo false (Return "blob:clip-2") veo_pro]
            wearingTee)).1
    = ["blob:clip-2"; "blob:clip-3"].
Proof.
  assert (length (videoUrls wearingTee) ≤ 2) as Hlen by (simpl; lia).
  destruct (video_list_keeps_last_two sampleFriendly
              [GenerateVideo true (Return "blob:clip-1") veo_fast;
               GenerateVideo false (Return "blob:clip-2") veo_pro]
              wearingTee Hlen) as (_ & Hnext).
  split; [exact Hlen|]. split; [reflexivity|].
  destruct (Hnext true "blob:clip-3" veo_fast "data:image/png;base64,I1")
    as (_ & _ & Hdrop); [reflexivity|reflexivity|reflexivity|].
  exact (Hdrop "blob:clip-1" "blob:clip-2" eq_refl).
Defined.

(** C7, on the code: the two early returns keep a clip that belongs to
    another picture.  A clip was made of the bare model; selecting the
    tee again takes the fast path to the tee layer and the clip of the
    bare model is still listed.  A clip was made of the third pose;
    going back to the first pose, which is cached, keeps that clip. *)
Theorem fast_paths_keep_stale_videos :
  (currentOutfitIndex teeUndoneWithClip = 0
   ∧ videoUrls teeUndoneWithClip = ["blob:clip-of-model"]
   ∧ handleGarmentSelect sampleFriendly (Rejected "offline") teeFile tee teeUndoneWithClip
     = (teeUndoneWithClip |> setCurrentOutfitIndex (to 1), [])
   ∧ videoUrls
       (handleGarmentSelect sampleFriendly (Rejected "offline") teeFile tee
          teeUndoneWithClip).1
     = ["blob:clip-of-model"])
  ∧ (currentPoseIndex teeThirdPoseWithClip = 2
     ∧ videoUrls teeThirdPoseWithClip = ["blob:clip-of-pose-3"]
     ∧ handlePoseSelect sampleFriendly (Rejected "offline") 0 teeThirdPoseWithClip
       = (teeThirdPoseWithClip |> setCurrentPoseIndex (to 0), [])
     ∧ videoUrls
         (handlePoseSelect sampleFriendly (Rejected "offline") 0 teeThirdPoseWithClip).1
       = ["blob:clip-of-pose-3"]).
Proof. repeat split. Qed.

(** ** Data URLs *)

Lemma allChars_app p s1 s2 :
  allChars p (s1 +:+ s2) = allChars p s1 && allChars p s2.
Proof.
  induction s1 as [|c s1 IH]; [reflexivity|].
  change (p c && allChars p (s1 +:+ s2) = p c && allChars p s1 && allChars p s2).
  rewrite IH. apply andb_assoc.
Qed.

Lemma append_assoc s1 s2 s3 : (s1 +:+ s2) +:+ s3 = s1 +:+ (s2 +:+ s3).
Proof.
  induction s1 as [|c s1 IH]; [reflexivity|].
  change (String c ((s1 +:+ s2) +:+ s3) = String c (s1 +:+ (s2 +:+ s3))).
  by rewrite IH.
Qed.

Lemma split_nonempty sep s : split sep s ≠ [].
Proof.
  destruct s as [|c s]; simpl; [discriminate|].
  destruct (Ascii.eqb c sep); [discriminate|]. destruct (split sep s); discriminate.
Qed.

Lemma split_without sep s : allChars (isNot sep) s = true → split sep s = [s].
Proof.
  induction s as [|c s IH]; simpl; [reflexivity|].
  unfold isNot at 1. destruct (Ascii.eqb c sep); simpl; [discriminate|].
  intros H. by rewrite (IH H).
Qed.

Lemma split_at_first sep s1 s2 :
  allChars (isNot sep) s1 = true →
  split sep (s1 +:+ String sep s2) = s1 :: split sep s2.
Proof.
  induction s1 as [|c s1 IH].
  - intros _. change (split sep (String sep s2) = "" :: split sep s2).
    simpl. by rewrite Ascii.eqb_refl.
  - change (allChars (isNot sep) (String c s1)) with (isNot sep c && allChars (isNot sep) s1).
    change (String c s1 +:+ String sep s2) with (String c (s1 +:+ String sep s2)).
    unfold isNot at 1. simpl. destruct (Ascii.eqb c sep); simpl; [discriminate|].
    intros H. by rewrite (IH H).
Qed.

(** The fields of a split have no separator in them, and there is one
    field only when the string has no separator. *)
Lemma split_fields sep s :
  Forall (fun field => allChars (isNot sep) field = true) (split sep s)
  ∧ (length (split sep s) = 1 ↔ allChars (isNot sep) s = true).
Proof.
  induction s as [|c s [IHf IHl]]; simpl.
  - split; [by repeat constructor|done].
  - unfold isNot at 2. destruct (Ascii.eqb c sep) eqn:E; simpl.
    + split; [by constructor|].
      pose proof (split_nonempty sep s). destruct (split sep s); [done|].
      simpl. split; [lia|discriminate].
    + destruct (split sep s) as [|field fields] eqn:Es; [by destruct (split_nonempty sep s)|].
      inversion IHf as [|? ? Hfield Hfields]; subst. split.
      * constructor; [|exact Hfields]. simpl. unfold isNot at 1. by rewrite E, Hfield.
      * exact IHl.
Qed.

Lemma lazyUntilSemicolon_cons c rest :
  lazyUntilSemicolon (String c rest)
  = if Ascii.eqb c ";"%char then Some ""
    else match dropOne lineTerminators (String c rest) with
         | Some _ => None
         | None => String c <$> lazyUntilSemicolon rest
         end.
Proof. reflexivity. Qed.

Lemma stripPrefix_before_semicolon w s rest :
  allChars (isNot ";") w = true →
  stripPrefix w s = None → stripPrefix w (s +:+ String ";" rest) = None.
Proof.
  revert s. induction w as [|a w IH]; intros s Hw; [discriminate|].
  change (allChars (isNot ";") (String a w)) with (isNot ";" a && allChars (isNot ";") w) in Hw.
  apply andb_true_iff in Hw as [Ha Hw].
  destruct s as [|b s].
  - intros _. change ("" +:+ String ";" rest) with (String ";" rest).
    unfold isNot in Ha. apply negb_true_iff in Ha. simpl. by rewrite Ha.
  - change (String b s +:+ String ";" rest) with (String b (s +:+ String ";" rest)).
    simpl. destruct (Ascii.eqb a b); [by apply IH|reflexivity].
Qed.

Lemma dropOne_before_semicolon s rest :
  dropOne lineTerminators s = None →
  dropOne lineTerminators (s +:+ String ";" rest) = None.
Proof.
  assert (∀ ws, Forall (fun w => allChars (isNot ";") w = true) ws →
                dropOne ws s = None → dropOne ws (s +:+ String ";" rest) = None) as H.
  { induction 1 as [|w ws Hw _ IH]; [reflexivity|]. simpl.
    destruct (stripPrefix w s) eqn:E; [discriminate|].
    rewrite (stripPrefix_before_semicolon _ _ _ Hw E). exact IH. }
  apply H. repeat constructor.
Qed.

Lemma lazyUntilSemicolon_plain mime rest :
  allChars (isNot ";") mime = true → noLineTerminator mime = true →
  lazyUntilSemicolon (mime +:+ String ";" rest) = Some mime.
Proof.
  induction mime as [|c mime IH].
  - reflexivity.
  - change (allChars (isNot ";") (String c mime))
      with (isNot ";" c && allChars (isNot ";") mime).
    change (String c mime +:+ String ";" rest) with (String c (mime +:+ String ";" rest)).
    intros [Hc Hm]%andb_true_iff Hline. rewrite lazyUntilSemicolon_cons.
    unfold isNot in Hc. apply negb_true_iff in Hc. rewrite Hc.
    change (noLineTerminator (String c mime))
      with (match dropOne lineTerminators (String c mime) with
            | Some _ => false
            | None => noLineTerminator mime
            end) in Hline.
    destruct (dropOne lineTerminators (String c mime)) eqn:E; [discriminate|].
    change (String c (mime +:+ String ";" rest)) with (String c mime +:+ String ";" rest).
    rewrite (dropOne_before_semicolon _ rest E).
    by rewrite (IH Hm Hline).
Qed.

Lemma lazyUntilSemicolon_Some s group :
  lazyUntilSemicolon s = Some group → ∃ rest, s = group +:+ String ";" rest.
Proof.
  revert group. induction s as [|c s IH]; intros group; [discriminate|].
  rewrite lazyUntilSemicolon_cons.
  destruct (Ascii.eqb_spec c ";"%char) as [->|_].
  - intros [= <-]. by exists s.
  - destruct (dropOne lineTerminators (String c s)); [discriminate|].
    destruct (lazyUntilSemicolon s) as [g|]; simpl; [|discriminate].
    intros [= <-]. destruct (IH g eq_refl) as [rest ->]. by exists rest.
Qed.

Lemma lazyUntilSemicolon_no_semicolon s group :
  lazyUntilSemicolon s = Some group → allChars (isNot ";") group = true.
Proof.
  revert group. induction s as [|c s IH]; intros group; [discriminate|].
  rewrite lazyUntilSemicolon_cons.
  destruct (Ascii.eqb c ";"%char) eqn:E.
  - by intros [= <-].
  - destruct (dropOne lineTerminators (String c s)); [discriminate|].
    destruct (lazyUntilSemicolon s) as [g|]; simpl; [|discriminate].
    intros [= <-]. simpl. unfold isNot at 1. by rewrite E, (IH g eq_refl).
Qed.

Lemma matchMime_Some s group :
  matchMime s = Some group →
  allChars (isNot ";") group = true
  ∧ ∃ before rest, s = before +:+ String ":" (group +:+ String ";" rest).
Proof.
  induction s as [|c s IH]; simpl; [discriminate|].
  assert (matchMime s = Some group →
          allChars (isNot ";") group = true
          ∧ ∃ before rest, String c s = before +:+ String ":" (group +:+ String ";" rest))
    as Hlater.
  { intros H. destruct (IH H) as (Hg & before & rest & ->).
    split; [exact Hg|]. by exists (String c before), rest. }
  destruct (Ascii.eqb_spec c ":"%char) as [->|_]; [|exact Hlater].
  destruct (lazyUntilSemicolon s) as [g|] eqn:E; [|exact Hlater].
  intros [= <-]. split; [by eapply lazyUntilSemicolon_no_semicolon|].
  destruct (lazyUntilSemicolon_Some _ _ E) as [rest ->]. by exists "", rest.
Qed.

(** X1: a data URL built by [handleApiResponse] from a non-empty MIME
    type without comma, semicolon or line terminator (U+000A, U+000D,
    U+2028, U+2029) and a payload without comma is parsed by
    [dataUrlToParts] into that MIME type and that payload. *)
Theorem dataUrl_parses_back (mime payload : string) :
  mime ≠ "" →
  allChars (isNot ",") mime = true →
  allChars (isNot ";") mime = true →
  noLineTerminator mime = true →
  allChars (isNot ",") payload = true →
  dataUrlToParts (dataUrl {| mimeType := Some mime; data := Some payload |})
  = Ok (mime, payload).
Proof.
  intros Hne Hcomma Hsemi Hline Hpayload.
  unfold dataUrlToParts.
  change (dataUrl {| mimeType := Some mime; data := Some payload |})
    with ("data:" +:+ (mime +:+ (";base64" +:+ String "," payload))).
  rewrite <- (append_assoc mime), <- (append_assoc "data:").
  rewrite split_at_first, (split_without _ _ Hpayload).
  - change (matchMime ("data:" +:+ mime +:+ ";base64"))
      with (match lazyUntilSemicolon (mime +:+ String ";" "base64") with
            | Some group => Some group
            | None => matchMime (mime +:+ String ";" "base64")
            end).
    rewrite (lazyUntilSemicolon_plain _ _ Hsemi Hline).
    by apply truthy_spec in Hne as ->.
  - by rewrite !allChars_app, Hcomma.
Qed.

Lemma dataUrl_parses_back_witness :
  dataUrlToParts "data:image/png;base64,iVBORw0KGgo=" = Ok ("image/png", "iVBORw0KGgo=")
  ∧ dataUrlToParts "data:image/€;base64,AA==" = Ok ("image/€", "AA==").
Proof.
  split.
  - apply (dataUrl_parses_back "image/png" "iVBORw0KGgo="); [discriminate|reflexivity..].
  - apply (dataUrl_parses_back "image/€" "AA=="); [discriminate|reflexivity..].
Defined.

(** X2: [dataUrlToParts] throws "Invalid data URL" exactly for the
    strings without a comma; when it returns, the MIME type is not
    empty and holds no semicolon and no comma, the payload holds no
    comma, and the URL has the MIME type between a colon and a semicolon
    in front of its first comma. *)
Theorem dataUrlToParts_outcomes (url : string) :
  (dataUrlToParts url = Raise "Invalid data URL" ↔ allChars (isNot ",") url = true)
  ∧ ∀ mime payload,
      dataUrlToParts url = Ok (mime, payload) →
      mime ≠ ""
      ∧ allChars (isNot ";") mime = true
      ∧ allChars (isNot ",") mime = true
      ∧ allChars (isNot ",") payload = true
      ∧ ∃ before rest, hd "" (split "," url) = before +:+ String ":" (mime +:+ String ";" rest).
Proof.
  destruct (split_fields "," url) as [Hfields Hone]. unfold dataUrlToParts.
  destruct (split "," url) as [|first [|second others]] eqn:Es.
  - by destruct (split_nonempty "," url).
  - split; [|discriminate]. split; [intros _; by apply Hone|reflexivity].
  - split.
    + split.
      * destruct (matchMime first) as [m|]; [destruct (truthy m)|]; discriminate.
      * intros H. apply Hone in H. discriminate.
    + intros mime payload. destruct (matchMime first) as [m|] eqn:Em; [|discriminate].
      destruct (truthy m) eqn:Et; [|discriminate]. intros [= <- <-].
      destruct (matchMime_Some _ _ Em) as (Hsemi & before & rest & Hfirst).
      inversion Hfields as [|? ? Hf Hrest]; subst.
      inversion Hrest as [|? ? Hs _]; subst.
      split; [by apply truthy_spec|]. split; [exact Hsemi|]. split.
      * rewrite allChars_app in Hf. apply andb_true_iff in Hf as [_ Hf].
        change (isNot "," ":" && allChars (isNot ",") (m +:+ String ";" rest) = true) in Hf.
        apply andb_true_iff in Hf as [_ Hf].
        rewrite allChars_app in Hf. by apply andb_true_iff in Hf as [Hf _].
      * split; [exact Hs|]. by exists before, rest.
Qed.

Lemma dataUrlToParts_outcomes_witness :
  dataUrlToParts "https://example.com/shirt.png" = Raise "Invalid data URL"
  ∧ dataUrlToParts "data:;base64,AAAA" = Raise "Could not parse MIME type from data URL"
  ∧ dataUrlToParts "data:image/svg+xml;charset=utf-8;base64,PHN2Zz4=,tail"
    = Ok ("image/svg+xml", "PHN2Zz4=").
Proof.
  split; [|split; reflexivity].
  apply (proj1 (dataUrlToParts_outcomes "https://example.com/shirt.png")). reflexivity.
Defined.

(** ** Whole sessions *)

Section Sessions.

Variable friendly : string → string → string.

Lemma appRun_cons e es s :
  appRun friendly (e :: es) s = appRun friendly es (appStep friendly e s).
Proof. reflexivity. Qed.

Lemma run_cons e es s : run friendly (e :: es) s = run friendly es (step friendly e s).
Proof. reflexivity. Qed.

(** What every handler of the engine leaves alone. *)
Lemma step_frame e s :
  savedOutfits (step friendly e s) = savedOutfits s
  ∧ isSheetCollapsed (step friendly e s) = isSheetCollapsed s.
Proof.
  destruct e as [url|reply file info| |reply newIndex|hasKey outcome model]; simpl.
  - done.
  - unfold handleGarmentSelect.
    destruct (displayImageUrl s) as [shown|]; [|done].
    destruct (_ || _); [done|]. destruct (sameGarment _ info); [done|].
    by destruct (generateVirtualTryOnImage reply).
  - unfold handleRemoveLastGarment. by destruct (0 <? currentOutfitIndex s)%nat.
  - unfold handlePoseSelect.
    destruct (_ || _); [done|].
    destruct (outfitHistory s !! currentOutfitIndex s) as [currentLayer|]; [|done].
    destruct (truthyOpt _); [done|].
    destruct (head _) as [base|]; [|done].
    destruct (negb (truthy base)); [done|].
    by destruct (generatePoseVariation reply).
  - unfold handleGenerateVideo.
    destruct (displayImageUrl s) as [shown|]; [|done].
    destruct (_ || _); [done|]. by destruct outcome.
Qed.

(** The busy flags and the loading message around one handler. *)
Lemma step_idle e s :
  isLoading s = false → isVideoLoading s = false → loadingMessage s = "" →
  isLoading (step friendly e s) = false
  ∧ isVideoLoading (step friendly e s) = false
  ∧ loadingMessage (step friendly e s) = "".
Proof.
  intros Hl Hv Hm.
  destruct e as [url|reply file info| |reply newIndex|hasKey outcome model]; simpl.
  - done.
  - unfold handleGarmentSelect.
    destruct (displayImageUrl s) as [shown|]; [|done].
    destruct (_ || _); [done|]. destruct (sameGarment _ info); [done|].
    by destruct (generateVirtualTryOnImage reply).
  - unfold handleRemoveLastGarment. by destruct (0 <? currentOutfitIndex s)%nat.
  - unfold handlePoseSelect.
    destruct (_ || _); [done|].
    destruct (outfitHistory s !! currentOutfitIndex s) as [currentLayer|]; [|done].
    destruct (truthyOpt _); [done|].
    destruct (head _) as [base|]; [|done].
    destruct (negb (truthy base)); [done|].
    by destruct (generatePoseVariation reply).
  - unfold handleGenerateVideo.
    destruct (displayImageUrl s) as [shown|]; [|done].
    destruct (_ || _); [done|]. by destruct outcome.
Qed.

Lemma appStep_idle e s :
  isLoading s = false ∧ isVideoLoading s = false ∧ loadingMessage s = "" →
  isLoading (appStep friendly e s) = false
  ∧ isVideoLoading (appStep friendly e s) = false
  ∧ loadingMessage (appStep friendly e s) = "".
Proof.
  intros (Hl & Hv & Hm). destruct e as [e| |idNow stampNow|savedId]; simpl.
  - by apply step_idle.
  - done.
  - unfold handleSaveOutfit. destruct (displayImageUrl s) as [shown|]; [|done].
    by destruct (negb (truthy shown)).
  - done.
Qed.

(** X3: in every run of the handlers of [App] from the state at mount,
    each handler having run to its end, the two busy flags are down and
    the loading message is empty: no exit of a handler leaves the
    component busy. *)
Theorem busy_flags_released (es : list AppEvent) :
  isLoading (appRun friendly es initialState) = false
  ∧ isVideoLoading (appRun friendly es initialState) = false
  ∧ loadingMessage (appRun friendly es initialState) = "".
Proof.
  assert (∀ s, isLoading s = false ∧ isVideoLoading s = false ∧ loadingMessage s = "" →
               isLoading (appRun friendly es s) = false
               ∧ isVideoLoading (appRun friendly es s) = false
               ∧ loadingMessage (appRun friendly es s) = "") as Hrun.
  { induction es as [|e es IH]; intros s H; [exact H|].
    rewrite appRun_cons. apply IH, appStep_idle, H. }
  by apply Hrun.
Qed.

(** X4: only [handleSaveOutfit] and [handleDeleteSavedOutfit] change the
    saved outfits: no run of the engine's handlers touches them, and
    Start Over keeps them. *)
Theorem saved_outfits_survive (es : list Event) (s : AppState) :
  savedOutfits (run friendly es s) = savedOutfits s
  ∧ savedOutfits (handleStartOver (run friendly es s)) = savedOutfits s
  ∧ savedOutfits (run friendly es (handleStartOver s)) = savedOutfits s.
Proof.
  assert (∀ s', savedOutfits (run friendly es s') = savedOutfits s') as Hrun.
  { induction es as [|e es IH]; intros s'; [reflexivity|].
    rewrite run_cons, IH. apply step_frame. }
  split; [apply Hrun|]. split; [exact (Hrun s)|]. by rewrite Hrun.
Qed.

End Sessions.

(** ** What a generation changes *)


Lemma availablePoseKeys_layer s currentLayer :
  outfitHistory s !! currentOutfitIndex s = Some currentLayer →
  availablePoseKeys s = objectKeys (poseImages currentLayer).
Proof.
  intros Hlayer. unfold availablePoseKeys. rewrite Hlayer.
  destruct (outfitHistory s); [discriminate|reflexivity].
Qed.

Section Generations.

Variable friendly : string → string → string.

(** X6: a generation that fails, for a garment or for a pose, leaves the
    history, the cursor, the pose index, the wardrobe, the video list
    and so the displayed image as they were; if the request was made the
    error is stored. *)
Theorem failed_generation_changes_nothing_shown
    (reply : ApiReply) (file : File) (info : WardrobeItem) (newIndex : nat)
    (s : AppState) (err : string) :
  imageOperation reply = Throw err →
  sameGarment (outfitHistory s !! (currentOutfitIndex s + 1)) info = false →
  poseInstructionAt newIndex ∉ availablePoseKeys s →
  (outfitHistory (handleGarmentSelect friendly reply file info s).1 = outfitHistory s
   ∧ currentOutfitIndex (handleGarmentSelect friendly reply file info s).1
     = currentOutfitIndex s
   ∧ currentPoseIndex (handleGarmentSelect friendly reply file info s).1
     = currentPoseIndex s
   ∧ wardrobe (handleGarmentSelect friendly reply file info s).1 = wardrobe s
   ∧ videoUrls (handleGarmentSelect friendly reply file info s).1 = videoUrls s
   ∧ displayImageUrl (handleGarmentSelect friendly reply file info s).1
     = displayImageUrl s
   ∧ ((handleGarmentSelect friendly reply file info s).2 ≠ [] →
      error (handleGarmentSelect friendly reply file info s).1
      = Some (friendly err "ไม่สามารถใช้ไอเทมนี้ได้")))
  ∧ (outfitHistory (handlePoseSelect friendly reply newIndex s).1 = outfitHistory s
     ∧ currentOutfitIndex (handlePoseSelect friendly reply newIndex s).1
       = currentOutfitIndex s
     ∧ currentPoseIndex (handlePoseSelect friendly reply newIndex s).1
       = currentPoseIndex s
     ∧ wardrobe (handlePoseSelect friendly reply newIndex s).1 = wardrobe s
     ∧ videoUrls (handlePoseSelect friendly reply newIndex s).1 = videoUrls s
     ∧ displayImageUrl (handlePoseSelect friendly reply newIndex s).1
       = displayImageUrl s
     ∧ ((handlePoseSelect friendly reply newIndex s).2 ≠ [] →
        error (handlePoseSelect friendly reply newIndex s).1
        = Some (friendly err "ไม่สามารถเปลี่ยนท่าทางได้"))).
Proof.
  intros Hfail Hother Habsent. split.
  - unfold handleGarmentSelect.
    destruct (displayImageUrl s) as [shown|] eqn:Hshown;
      [|simpl; by rewrite Hshown].
    destruct (_ || _); [simpl; by rewrite Hshown|].
    rewrite Hother. unfold generateVirtualTryOnImage. rewrite Hfail.
    repeat (split; [reflexivity|]). split; [exact Hshown|done].
  - unfold handlePoseSelect.
    destruct (_ || _); [done|].
    destruct (outfitHistory s !! currentOutfitIndex s) as [currentLayer|] eqn:Hlayer;
      [|done].
    assert (objectGet (poseImages currentLayer) (poseInstructionAt newIndex) = None) as ->.
    { destruct (objectGet _ _) as [v|] eqn:Hget; [|reflexivity].
      exfalso. apply Habsent. unfold availablePoseKeys. rewrite Hlayer.
      destruct (outfitHistory s); [discriminate|].
      clear -Hget. induction (poseImages currentLayer) as [|[k v'] o IH]; [discriminate|].
      simpl in *. destruct (String.eqb_spec k (poseInstructionAt newIndex)) as [->|_].
      - left.
      - right. by apply IH. }
    simpl. destruct (head _) as [base|]; [|done].
    destruct (negb (truthy base)); [done|].
    unfold generatePoseVariation. rewrite Hfail. done.
Qed.


End Generations.

(** ** Pose images and garments of the layers *)

Lemma objectGet_None_keys o k : objectGet o k = None ↔ k ∉ objectKeys o.
Proof.
  induction o as [|[k' v] o IH]; simpl.
  - split; [intros _ H; inversion H|done].
  - destruct (String.eqb_spec k' k) as [->|Hne].
    + split; [discriminate|]. intros H. destruct H. left.
    + rewrite IH. split.
      * intros H [->|Hin]%elem_of_cons; [done|by apply H].
      * intros H Hin. apply H. by right.
Qed.

Lemma objectSet_absent o k v : objectGet o k = None → objectSet o k v = o ++ [(k, v)].
Proof.
  induction o as [|[k' v'] o IH]; simpl; [done|].
  destruct (String.eqb k' k); [discriminate|]. intros H. by rewrite (IH H).
Qed.

Section Layers.

Variable friendly : string → string → string.



Lemma inWardrobe_spec prev info : inWardrobe prev info = true ↔ id info ∈ id <$> prev.
Proof.
  unfold inWardrobe. rewrite existsb_exists. split.
  - intros (item & Hin & Heq%String.eqb_eq). rewrite <- Heq.
    apply list_elem_of_fmap_2, list_elem_of_In, Hin.
  - intros (item & Heq & Hin)%list_elem_of_fmap. exists item.
    split; [by apply list_elem_of_In|]. rewrite Heq. apply String.eqb_refl.
Qed.

Lemma step_wardrobe e s :
  NoDup (id <$> wardrobe s) →
  NoDup (id <$> wardrobe (step friendly e s))
  ∧ wardrobe s `prefix_of` wardrobe (step friendly e s).
Proof.
  intros Hnodup.
  destruct e as [url|reply file info| |reply newIndex|hasKey outcome model]; simpl.
  - done.
  - unfold handleGarmentSelect.
    destruct (displayImageUrl s) as [shown|]; [|done].
    destruct (_ || _); [done|]. destruct (sameGarment _ info); [done|].
    destruct (generateVirtualTryOnImage reply); [|done]. simpl.
    destruct (inWardrobe (wardrobe s) info) eqn:Hin; [done|].
    split; [|by apply prefix_app_r].
    rewrite fmap_app. apply NoDup_app. split; [exact Hnodup|]. split.
    + intros x Hx [->|Hnil]%elem_of_cons; [|inversion Hnil].
      apply inWardrobe_spec in Hx. congruence.
    + apply NoDup_singleton.
  - unfold handleRemoveLastGarment. by destruct (0 <? currentOutfitIndex s)%nat.
  - unfold handlePoseSelect.
    destruct (_ || _); [done|].
    destruct (outfitHistory s !! currentOutfitIndex s) as [currentLayer|]; [|done].
    destruct (truthyOpt _); [done|].
    destruct (head _) as [base|]; [|done].
    destruct (negb (truthy base)); [done|].
    by destruct (generatePoseVariation reply).
  - unfold handleGenerateVideo.
    destruct (displayImageUrl s) as [shown|]; [|done].
    destruct (_ || _); [done|]. by destruct outcome.
Qed.

(** X11: in every run of the handlers of [App] from the state at mount,
    no two items of the wardrobe have the same id, and the wardrobe
    starts with the five items of the default wardrobe, in their order;
    a handler of the engine only ever adds items behind those already
    there. *)
Theorem wardrobe_ids_stay_unique (es : list AppEvent) :
  NoDup (id <$> wardrobe (appRun friendly es initialState))
  ∧ defaultWardrobe `prefix_of` wardrobe (appRun friendly es initialState)
  ∧ ∀ e, wardrobe (appRun friendly es initialState)
         `prefix_of` wardrobe (step friendly e (appRun friendly es initialState)).
Proof.
  assert (NoDup (id <$> defaultWardrobe)) as Hdefault.
  { apply NoDup_ListNoDup. repeat constructor; simpl; intuition discriminate. }
  assert (∀ s, NoDup (id <$> wardrobe s) ∧ defaultWardrobe `prefix_of` wardrobe s →
               NoDup (id <$> wardrobe (appRun friendly es s))
               ∧ defaultWardrobe `prefix_of` wardrobe (appRun friendly es s)) as Hrun.
  { induction es as [|e es' IH]; intros s H; [exact H|].
    rewrite appRun_cons. apply IH. destruct H as [Hnodup Hprefix].
    destruct e as [e| |idNow stampNow|savedId]; simpl.
    - destruct (step_wardrobe e s Hnodup) as [Hn Hp]. split; [exact Hn|].
      by etrans.
    - done.
    - unfold handleSaveOutfit. destruct (displayImageUrl s) as [shown|]; [|done].
      by destruct (negb (truthy shown)).
    - done. }
  destruct (Hrun initialState) as [Hnodup Hprefix]; [done|].
  split; [exact Hnodup|]. split; [exact Hprefix|].
  intros e. by apply step_wardrobe.
Qed.

End Layers.

(** ** Saved outfits *)

Lemma omap_garment_worn (layers : list OutfitLayer) :
  (∀ layer, layer ∈ layers → is_Some (garment layer)) →
  Some <$> omap garment layers = garment <$> layers.
Proof.
  induction layers as [|layer layers IH]; intros Hworn; [reflexivity|].
  destruct (Hworn layer) as [g Hg]; [left|].
  simpl. rewrite Hg. simpl. f_equal. apply IH. intros l Hl. apply Hworn. by right.
Qed.

Section SavedOutfits.

Variable friendly : string → string → string.

(** X12: when an image is displayed, in a state whose cursor is in the
    history, whose first layer has no garment and whose other layers
    each have one, Save stores in front of the saved outfits one outfit
    whose image is the image displayed and whose items are the garments
    of the active layers after the base layer, in the order they were
    put on, as many as the cursor says; its id is "saved-" followed by
    the first clock value in decimal, its timestamp the second. *)
Theorem saved_outfit_holds_worn_garments
    (s : AppState) (shown : string) (idNow stampNow : nat) :
  displayImageUrl s = Some shown → truthy shown = true →
  cursorInRange s → baseFirst s → garmentsAfterBase s →
  ∃ saved,
    handleSaveOutfit idNow stampNow s = (s |> setSavedOutfits (fun prev => saved :: prev))
    ∧ SavedOutfit.id saved = "saved-" +:+ pretty idNow
    ∧ SavedOutfit.timestamp saved = stampNow
    ∧ SavedOutfit.imageUrl saved = shown
    ∧ length (SavedOutfit.items saved) = currentOutfitIndex s
    ∧ Some <$> SavedOutfit.items saved = garment <$> drop 1 (activeOutfitLayers s).
Proof.
  intros Hshown Htruthy Hc Hbase Hafter.
  unfold handleSaveOutfit. rewrite Hshown, Htruthy. simpl.
  eexists. split; [reflexivity|]. simpl.
  split; [reflexivity|]. split; [reflexivity|]. split; [reflexivity|].
  unfold baseFirst, cursorInRange, garmentsAfterBase, activeOutfitLayers in *.
  destruct (outfitHistory s) as [|base rest]; [discriminate|].
  simpl in Hbase. injection Hbase as Hbase.
  replace (currentOutfitIndex s + 1) with (S (currentOutfitIndex s)) by lia.
  simpl. rewrite Hbase. simpl in Hc.
  assert (∀ layer, layer ∈ take (currentOutfitIndex s) rest → is_Some (garment layer))
    as Hworn.
  { intros layer [i Hi]%list_elem_of_lookup.
    apply lookup_take_Some in Hi as [Hi _].
    apply (Hafter (S i) layer); [exact Hi|lia]. }
  assert (Some <$> list_omap _ _ garment (take (currentOutfitIndex s) rest)
          = garment <$> take (currentOutfitIndex s) rest) as Hitems
    by exact (omap_garment_worn _ Hworn).
  split; [|by rewrite drop_0].
  rewrite <- (length_fmap Some), Hitems, length_fmap, length_take. lia.
Qed.

Lemma handleSaveOutfit_shown idNow stampNow s shown :
  displayImageUrl s = Some shown → truthy shown = true →
  handleSaveOutfit idNow stampNow s
  = (s |> setSavedOutfits
            (fun prev =>
               {| SavedOutfit.id := "saved-" +:+ pretty idNow;
                  SavedOutfit.imageUrl := shown;
                  SavedOutfit.items := omap garment (activeOutfitLayers s);
                  SavedOutfit.timestamp := stampNow |} :: prev)).
Proof. intros Hshown Htruthy. unfold handleSaveOutfit. by rewrite Hshown, Htruthy. Qed.

Lemma filter_all (P : SavedOutfit.t → Prop) `{∀ o, Decision (P o)} (l : list SavedOutfit.t) :
  Forall P l → filter P l = l.
Proof.
  induction 1 as [|o l Ho _ IH]; [reflexivity|].
  by rewrite filter_cons_True, IH.
Qed.

Lemma saved_id_differs (n m : nat) :
  n ≠ m → "saved-" +:+ pretty m ≠ "saved-" +:+ pretty n.
Proof.
  intros Hne Heq. apply Hne. symmetry.
  by apply (inj pretty), (inj (String.app "saved-")).
Qed.

(** X13: Delete after Save with the id just given restores the state
    when no saved outfit had that id before.  Two outfits saved at the
    same clock value have the same id, and deleting it removes both; an
    outfit saved at another clock value has another id and stays. *)
Theorem delete_after_save
    (s : AppState) (idNow otherNow stamp1 stamp2 : nat) (shown : string) :
  displayImageUrl s = Some shown → truthy shown = true →
  (Forall (fun o => SavedOutfit.id o ≠ "saved-" +:+ pretty idNow) (savedOutfits s) →
   handleDeleteSavedOutfit ("saved-" +:+ pretty idNow) (handleSaveOutfit idNow stamp1 s)
   = s)
  ∧ savedOutfits
      (handleDeleteSavedOutfit ("saved-" +:+ pretty idNow)
         (handleSaveOutfit idNow stamp2 (handleSaveOutfit idNow stamp1 s)))
    = savedOutfits (handleDeleteSavedOutfit ("saved-" +:+ pretty idNow) s)
  ∧ (idNow ≠ otherNow →
     savedOutfits
       (handleDeleteSavedOutfit ("saved-" +:+ pretty idNow)
          (handleSaveOutfit otherNow stamp2 (handleSaveOutfit idNow stamp1 s)))
     = savedOutfits
         (handleSaveOutfit otherNow stamp2
            (handleDeleteSavedOutfit ("saved-" +:+ pretty idNow) s))).
Proof.
  intros Hshown Htruthy.
  rewrite !(handleSaveOutfit_shown _ _ _ shown) by done.
  split; [|split].
  - intros Hfresh. unfold handleDeleteSavedOutfit, setSavedOutfits.
    cbn -[filter pretty].
    rewrite filter_cons_False by (intros Hne; by apply Hne).
    rewrite filter_all by exact Hfresh. by destruct s.
  - unfold handleDeleteSavedOutfit. cbn -[filter pretty].
    rewrite !filter_cons_False by (intros Hne; by apply Hne). reflexivity.
  - intros Hother. unfold handleDeleteSavedOutfit. cbn -[filter pretty].
    rewrite filter_cons_True by (cbn -[pretty]; by apply saved_id_differs).
    rewrite filter_cons_False by (intros Hne; by apply Hne). reflexivity.
Qed.

End SavedOutfits.

(** ** The pose arrows *)

Lemma indexOfString_Some v arr i :
  indexOfString v arr = Some i → arr !! i = Some v.
Proof.
  revert i. induction arr as [|a arr IH]; intros i; simpl; [discriminate|].
  destruct (String.eqb_spec a v) as [->|_].
  - by intros [= <-].
  - destruct (indexOfString v arr) as [j|]; simpl; [|discriminate].
    intros [= <-]. by apply IH.
Qed.

Lemma indexOfString_elem v arr : v ∈ arr → is_Some (indexOfString v arr).
Proof.
  induction arr as [|a arr IH]; [by intros ?%elem_of_nil|].
  intros Hin. simpl. destruct (String.eqb_spec a v) as [->|Hne]; [done|].
  apply elem_of_cons in Hin as [->|Hin]; [done|].
  destruct (IH Hin) as [j ->]. done.
Qed.

Lemma indexOf_Some x arr i : indexOf x arr = Some i → ∃ v, x = Some v ∧ arr !! i = Some v.
Proof.
  destruct x as [v|]; simpl; [|discriminate].
  intros H. exists v. split; [reflexivity|]. by apply indexOfString_Some.
Qed.



Section Arrows.

Variable friendly : string → string → string.

(** An available pose has a non-empty image when images are present. *)
Lemma available_pose_cached s layer pose :
  imagesPresent s →
  outfitHistory s !! currentOutfitIndex s = Some layer →
  pose ∈ objectKeys (poseImages layer) →
  truthyOpt (objectGet (poseImages layer) pose) = true.
Proof.
  intros Himg Hlayer Hin.
  destruct (proj1 (Forall_lookup _ _) Himg _ _ Hlayer) as [_ Hall].
  destruct (objectGet (poseImages layer) pose) as [image|] eqn:Hget.
  - exact (objectGet_Forall (fun v => truthy v = true) _ _ _ Hall Hget).
  - by apply objectGet_None_keys in Hget.
Qed.

Lemma cached_pose_no_call reply newIndex s layer :
  outfitHistory s !! currentOutfitIndex s = Some layer →
  truthyOpt (objectGet (poseImages layer) (poseInstructionAt newIndex)) = true →
  (handlePoseSelect friendly reply newIndex s).2 = []
  ∧ outfitHistory (handlePoseSelect friendly reply newIndex s).1 = outfitHistory s
  ∧ (currentPoseIndex (handlePoseSelect friendly reply newIndex s).1 = newIndex
     ∨ (handlePoseSelect friendly reply newIndex s).1 = s).
Proof.
  intros Hlayer Hcached. unfold handlePoseSelect.
  destruct (_ || _); [auto|]. rewrite Hlayer, Hcached. auto.
Qed.

(** X15: in a session started with a model photo, while the pose shown
    is one of the available poses, the left arrow never asks the service
    for anything, and neither does the right arrow unless the pose
    shown is the last of the available ones: they switch to a pose
    whose image is there, and the history stays as it is. *)
Theorem arrows_walk_cached_poses
    (url : string) (s0 : AppState) (es : list Event) (s : AppState)
    (reply : ApiReply) (current : nat) :
  truthy url = true → Forall offered es →
  s = run friendly es (handleModelFinalized url s0) →
  indexOf (POSE_INSTRUCTIONS !! currentPoseIndex s) (availablePoseKeys s) = Some current →
  ((arrowClick friendly handlePreviousPose reply s).2 = []
   ∧ outfitHistory (arrowClick friendly handlePreviousPose reply s).1 = outfitHistory s)
  ∧ (current + 1 < length (availablePoseKeys s) →
     (arrowClick friendly handleNextPose reply s).2 = []
     ∧ outfitHistory (arrowClick friendly handleNextPose reply s).1 = outfitHistory s).
Proof.
  intros Hurl Hes -> Hcurrent.
  destruct (session_wellFormed friendly url s0 es Hurl Hes) as [Hc Himg].
  set (s := run friendly es (handleModelFinalized url s0)) in *.
  destruct (lookup_lt_is_Some_2 _ _ Hc) as [layer Hlayer].
  assert (∀ key newIndex,
            indexOf (availablePoseKeys s !! key) POSE_INSTRUCTIONS = Some newIndex →
            (handlePoseSelect friendly reply newIndex s).2 = []
            ∧ outfitHistory (handlePoseSelect friendly reply newIndex s).1
              = outfitHistory s) as Hneighbour.
  { intros key newIndex (pose & Hkey & Hfound)%indexOf_Some.
    destruct (cached_pose_no_call reply newIndex s layer Hlayer) as (Hcalls & Hhistory & _);
      [|by split].
    apply (available_pose_cached s); [exact Himg|exact Hlayer|].
    unfold poseInstructionAt. rewrite Hfound. simpl.
    rewrite <- (availablePoseKeys_layer _ _ Hlayer).
    by apply list_elem_of_lookup_2 in Hkey. }
  split.
  - unfold arrowClick, handlePreviousPose.
    destruct (_ || _); [done|]. rewrite Hcurrent.
    destruct (indexOf _ POSE_INSTRUCTIONS) as [newIndex|] eqn:Hfound; [|done].
    exact (Hneighbour _ _ Hfound).
  - intros Hnotlast. unfold arrowClick, handleNextPose.
    destruct (_ || _); [done|]. rewrite Hcurrent.
    destruct (Nat.eqb_spec (length (availablePoseKeys s)) 0); [lia|].
    destruct (Nat.ltb_spec (current + 1) (length (availablePoseKeys s))); [|lia].
    destruct (indexOf _ POSE_INSTRUCTIONS) as [newIndex|] eqn:Hfound; [|done].
    exact (Hneighbour _ _ Hfound).
Qed.

End Arrows.

(** ** The poses of a layer *)

Lemma objectSet_present_keys o k v :
  is_Some (objectGet o k) → objectKeys (objectSet o k v) = objectKeys o.
Proof.
  induction o as [|[k' v'] o IH]; simpl; [by intros [? ?]|].
  destruct (String.eqb k' k); [done|]. intros H. simpl. by rewrite (IH H).
Qed.

Lemma objectSet_keys_known o k v (known : list string) :
  NoDup (objectKeys o) → (∀ pose, pose ∈ objectKeys o → pose ∈ known) → k ∈ known →
  NoDup (objectKeys (objectSet o k v))
  ∧ ∀ pose, pose ∈ objectKeys (objectSet o k v) → pose ∈ known.
Proof.
  intros Hnodup Hknown Hk.
  destruct (objectGet o k) as [old|] eqn:Hget.
  - by rewrite objectSet_present_keys.
  - rewrite (objectSet_absent _ _ v Hget). unfold objectKeys. rewrite map_app. simpl.
    apply objectGet_None_keys in Hget. split.
    + apply NoDup_app. split; [exact Hnodup|]. split; [|apply NoDup_singleton].
      intros pose Hin ->%list_elem_of_singleton. by apply Hget.
    + intros pose [Hin| ->%list_elem_of_singleton]%elem_of_app; [by apply Hknown|done].
Qed.

Lemma poseInstructionAt_known i :
  i < length POSE_INSTRUCTIONS → poseInstructionAt i ∈ POSE_INSTRUCTIONS.
Proof.
  intros Hi. destruct (lookup_lt_is_Some_2 _ _ Hi) as [pose Hpose].
  unfold poseInstructionAt. rewrite Hpose. by apply list_elem_of_lookup_2 in Hpose.
Qed.

Lemma zero_is_a_pose : 0 < length POSE_INSTRUCTIONS.
Proof. apply Nat.lt_0_succ. Qed.

Lemma single_pose_known i image :
  i < length POSE_INSTRUCTIONS →
  NoDup (objectKeys [(poseInstructionAt i, image)])
  ∧ ∀ pose, pose ∈ objectKeys [(poseInstructionAt i, image)] → pose ∈ POSE_INSTRUCTIONS.
Proof.
  intros Hi. split; [apply NoDup_singleton|].
  intros pose ->%list_elem_of_singleton. by apply poseInstructionAt_known.
Qed.

Section KnownPoses.

Variable friendly : string → string → string.

Lemma appStep_posesKnown e s :
  poseInRange e → posesKnown s → posesKnown (appStep friendly e s).
Proof.
  unfold posesKnown. intros He [Hindex Hlayers].
  destruct e as [[url|reply file info| |reply newIndex|hasKey outcome model]
                | |idNow stampNow|savedId]; simpl.
  - split; [exact Hindex|]. constructor; [|constructor].
    apply single_pose_known, zero_is_a_pose.
  - unfold handleGarmentSelect.
    destruct (displayImageUrl s) as [shown|]; [|done].
    destruct (_ || _); [done|].
    destruct (sameGarment _ info); [split; [apply zero_is_a_pose|done]|].
    destruct (generateVirtualTryOnImage reply); [|done]. simpl.
    split; [exact Hindex|]. apply Forall_app. split; [by apply Forall_take|].
    constructor; [|constructor]. by apply single_pose_known.
  - unfold handleRemoveLastGarment.
    destruct (0 <? currentOutfitIndex s)%nat; [split; [apply zero_is_a_pose|done]|done].
  - simpl in He. unfold handlePoseSelect.
    destruct (_ || _); [done|].
    destruct (outfitHistory s !! currentOutfitIndex s) as [currentLayer|]; [|done].
    destruct (truthyOpt _); [done|].
    destruct (head _) as [base|]; [|done].
    destruct (negb (truthy base)); [done|].
    destruct (generatePoseVariation reply); [|done]. simpl.
    split; [exact He|]. apply Forall_alter; [exact Hlayers|].
    intros layer _ [Hnodup Hknown]. simpl.
    apply objectSet_keys_known; [exact Hnodup|exact Hknown|].
    by apply poseInstructionAt_known.
  - unfold handleGenerateVideo.
    destruct (displayImageUrl s) as [shown|]; [|done].
    destruct (_ || _); [done|]. by destruct outcome.
  - split; [apply zero_is_a_pose|constructor].
  - unfold handleSaveOutfit. destruct (displayImageUrl s) as [shown|]; [|done].
    by destruct (negb (truthy shown)).
  - done.
Qed.

(** X16: in every run from the state at mount whose pose selections ask
    for one of the six poses, the pose index stays below six, and every
    layer files its images under different poses of the list: a layer
    never has more than six pose images, and none under a key that is
    not a pose instruction. *)
Theorem layers_hold_known_poses (es : list AppEvent) (i : nat) (layer : OutfitLayer) :
  Forall poseInRange es →
  outfitHistory (appRun friendly es initialState) !! i = Some layer →
  currentPoseIndex (appRun friendly es initialState) < length POSE_INSTRUCTIONS
  ∧ NoDup (objectKeys (poseImages layer))
  ∧ (∀ pose, pose ∈ objectKeys (poseImages layer) → pose ∈ POSE_INSTRUCTIONS)
  ∧ length (poseImages layer) ≤ 6.
Proof.
  intros Hes.
  assert (∀ s, posesKnown s → posesKnown (appRun friendly es s)) as Hrun.
  { induction Hes as [|e es' He _ IH]; intros s H; [exact H|].
    rewrite appRun_cons. by apply IH, appStep_posesKnown. }
  intros Hlayer.
  destruct (Hrun initialState) as [Hindex Hlayers].
  { split; [apply zero_is_a_pose|constructor]. }
  destruct (proj1 (Forall_lookup _ _) Hlayers _ _ Hlayer) as [Hnodup Hknown].
  split; [exact Hindex|]. split; [exact Hnodup|]. split; [exact Hknown|].
  change 6 with (length POSE_INSTRUCTIONS).
  replace (length (poseImages layer)) with (length (objectKeys (poseImages layer)))
    by apply length_map.
  apply submseteq_length, NoDup_submseteq; [exact Hnodup|exact Hknown].
Qed.

End KnownPoses.

(** ** From the start screen to the dressing room *)

Section StartScreenToApp.

Variable friendly : string → string → string.

(** The generated model, when there is one, came out of
    [handleApiResponse]. *)
Lemma startScreen_model_is_data_url (es : list StartScreen.Event) :
  ∀ st, (∀ url, StartScreen.generatedModelUrl st = Some url → ∃ blob, url = dataUrl blob) →
        ∀ url, StartScreen.generatedModelUrl (StartScreen.run friendly es st) = Some url →
               ∃ blob, url = dataUrl blob.
Proof.
  induction es as [|e es IH]; intros st Hst; [exact Hst|].
  apply IH. clear IH. intros url.
  destruct e as [read file|reply|reply|]; simpl.
  - unfold StartScreen.handleFileSelect.
    destruct (negb _); [apply Hst|]. destruct read; [discriminate|apply Hst].
  - unfold StartScreen.handleRemoveBackground.
    destruct (StartScreen.originalFile st); [|apply Hst].
    destruct (negb _); [apply Hst|].
    destruct (removeBackground reply _); apply Hst.
  - unfold StartScreen.handleGenerateModel.
    destruct (if truthyOpt _ then _ else _) as [source|]; [|apply Hst].
    destruct (generateModelImage reply source) as [result|err] eqn:Hgen; [|apply Hst].
    simpl. intros [= <-].
    assert (imageOperation reply = Return result) as Himage.
    { destruct source as [dataUrl|file]; simpl in Hgen; [|exact Hgen].
      destruct (dataUrlToPart dataUrl); [exact Hgen|discriminate]. }
    destruct reply as [message|response]; [discriminate|]. simpl in Himage.
    unfold handleApiResponse in Himage.
    destruct (firstInlineData _) as [blob|].
    + injection Himage as <-. by exists blob.
    + destruct (_ && _); discriminate.
  - discriminate.
Qed.

(** X17: whatever happened on the start screen since it was mounted,
    the URL its button passes to [onModelFinalized] is a data URL built
    by [handleApiResponse], hence not empty; [handleModelFinalized]
    called with it, on any state, gives a state that displays it, whose
    cursor points at its one layer, and whose layer has that image and
    no empty one. *)
Theorem start_screen_hands_over_a_model
    (starts : list StartScreen.Event) (url : string) (s0 : AppState) :
  StartScreen.finalizeOffered (StartScreen.run friendly starts StartScreen.initial)
  = Some url →
  (∃ blob, url = dataUrl blob)
  ∧ truthy url = true
  ∧ displayImageUrl (handleModelFinalized url s0) = Some url
  ∧ cursorInRange (handleModelFinalized url s0)
  ∧ imagesPresent (handleModelFinalized url s0).
Proof.
  intros Hoffered. unfold StartScreen.finalizeOffered in Hoffered.
  destruct (_ && _); [|discriminate].
  destruct (startScreen_model_is_data_url starts StartScreen.initial) with (url := url)
    as [blob ->]; [discriminate|exact Hoffered|].
  split; [by exists blob|]. split; [apply truthy_dataUrl|]. split.
  - unfold displayImageUrl. cbn -[String.eqb poseInstructionAt dataUrl].
    by destruct (String.eqb _ _).
  - apply (session_wellFormed friendly (dataUrl blob) s0 []);
      [apply truthy_dataUrl|apply Forall_nil_2].
Qed.

End StartScreenToApp.

(** ** Video generation *)

Lemma pollUntilDone_done operation answers :
  done operation = true → pollUntilDone operation answers = Some (Ok operation, []).
Proof. intros H. destruct answers; simpl; by rewrite H. Qed.

Lemma pollUntilDone_next operation next answers :
  done operation = false →
  pollUntilDone operation (Ok next :: answers)
  = match pollUntilDone next answers with
    | Some (outcome, effects) =>
        Some (outcome, sleep 10000%N :: pollOperation :: effects)
    | None => None
    end.
Proof. intros H. simpl. by rewrite H. Qed.

Lemma pollUntilDone_finished operation (waiting : list VideosOperation) finished rest :
  done operation = false →
  Forall (fun op => done op = false) waiting →
  done finished = true →
  pollUntilDone operation ((Ok <$> waiting) ++ Ok finished :: rest)
  = Some (Ok finished, rounds (S (length waiting))).
Proof.
  intros Hfirst Hwaiting Hdone. revert operation Hfirst.
  induction Hwaiting as [|op waiting Hop _ IH]; intros operation Hfirst.
  - change ((Ok <$> []) ++ Ok finished :: rest) with (Ok finished :: rest).
    by rewrite (pollUntilDone_next _ _ _ Hfirst), (pollUntilDone_done _ _ Hdone).
  - rewrite fmap_cons, <- app_comm_cons, (pollUntilDone_next _ _ _ Hfirst).
    by rewrite (IH op Hop).
Qed.

Lemma pollUntilDone_waiting operation (waiting : list VideosOperation) :
  done operation = false →
  Forall (fun op => done op = false) waiting →
  pollUntilDone operation (Ok <$> waiting) = None.
Proof.
  intros Hfirst Hwaiting. revert operation Hfirst.
  induction Hwaiting as [|op waiting Hop _ IH]; intros operation Hfirst.
  - simpl. by rewrite Hfirst.
  - rewrite fmap_cons, (pollUntilDone_next _ _ _ Hfirst). by rewrite (IH op Hop).
Qed.

(** X18: for an image that parses, [generateVideo] starts one
    operation; if that operation is done at once it downloads without
    waiting, and otherwise it sleeps ten seconds before each poll and
    polls until the first answer that is done, never further; it then
    fetches the URI of the finished operation with the API key appended,
    and that is the text "undefined" when the operation carries no
    video.  While no answer is done it has not returned. *)
Theorem generateVideo_polls_until_done
    (apiKey : option string) (fetched : string → Completion)
    (imageSource modelName mimeType data : string)
    (operation : VideosOperation) (waiting : list VideosOperation)
    (finished : VideosOperation) (rest : list (Result VideosOperation)) :
  dataUrlToParts imageSource = Ok (mimeType, data) →
  Forall (fun op => done op = false) waiting →
  done finished = true →
  (done operation = true →
   generateVideo apiKey (Ok operation) rest fetched imageSource modelName
   = Some (fetched (templateArg (videoUri operation) +:+ "&key=" +:+ templateArg apiKey),
           [startVideo (videoRequest modelName mimeType data);
            fetchVideo (templateArg (videoUri operation) +:+ "&key="
                        +:+ templateArg apiKey)]))
  ∧ (done operation = false →
     generateVideo apiKey (Ok operation) ((Ok <$> waiting) ++ Ok finished :: rest)
       fetched imageSource modelName
     = Some (fetched (templateArg (videoUri finished) +:+ "&key=" +:+ templateArg apiKey),
             startVideo (videoRequest modelName mimeType data)
             :: rounds (S (length waiting))
             ++ [fetchVideo (templateArg (videoUri finished) +:+ "&key="
                             +:+ templateArg apiKey)])
     ∧ generateVideo apiKey (Ok operation) (Ok <$> waiting) fetched imageSource modelName
       = None).
Proof.
  intros Hparse Hwaiting Hdone. unfold generateVideo. rewrite Hparse. split.
  - intros Hfirst. by rewrite (pollUntilDone_done _ _ Hfirst).
  - intros Hfirst. split.
    + by rewrite (pollUntilDone_finished _ _ _ _ Hfirst Hwaiting Hdone).
    + by rewrite (pollUntilDone_waiting _ _ Hfirst Hwaiting).
Qed.

Lemma generateVideo_polls_until_done_witness :
  generateVideo (Some "KEY") (Ok pending)
    [Ok pending; Ok pending; Ok {| done := true; videoUri := None |}; Ok pending]
    (fun url => Return ("blob:" +:+ url))
    "data:image/png;base64,I1" "veo-3.1-fast-generate-preview"
  = Some (Return "blob:undefined&key=KEY",
          [ startVideo {| requestModel := "veo-3.1-fast-generate-preview";
                          requestPrompt := basePrompt;
                          requestImageBytes := "I1"; requestMimeType := "image/png";
                          requestResolution := "720p" |};
            sleep 10000%N; pollOperation; sleep 10000%N; pollOperation;
            sleep 10000%N; pollOperation;
            fetchVideo "undefined&key=KEY" ])
  ∧ generateVideo (Some "KEY") (Ok pending) [Ok pending; Ok pending]
      (fun url => Return ("blob:" +:+ url))
      "data:image/png;base64,I1" "veo-3.1-fast-generate-preview"
    = None.
Proof.
  destruct (generateVideo_polls_until_done (Some "KEY") (fun url => Return ("blob:" +:+ url))
              "data:image/png;base64,I1" "veo-3.1-fast-generate-preview" "image/png" "I1"
              pending [pending; pending] {| done := true; videoUri := None |} [Ok pending])
    as (_ & Hloop);
    [reflexivity|by repeat constructor|reflexivity|].
  destruct (Hloop eq_refl) as [_ Hwaiting].
  split; [reflexivity|exact Hwaiting].
Defined.

Lemma prefix_app_iff p s : String.prefix p s = true ↔ ∃ post, s = p +:+ post.
Proof.
  revert s. induction p as [|a p IH]; intros s.
  - split; [intros _; by exists s|]. intros _. by destruct s.
  - destruct s as [|b s]; simpl.
    + split; [discriminate|]. intros [post H]. discriminate.
    + destruct (Ascii.ascii_dec a b) as [->|Hne].
      * rewrite IH. split; intros [post H]; exists post.
        -- by rewrite H.
        -- by injection H.
      * split; [discriminate|]. intros [post H].
        change (String b s = String a (p +:+ post)) in H. congruence.
Qed.

(** [includes] finds the needle wherever it is. *)
Lemma includes_spec needle hay :
  includes needle hay = true ↔ ∃ pre post, hay = pre +:+ needle +:+ post.
Proof.
  induction hay as [|c hay IH].
  - change (includes needle "") with (String.prefix needle "" || false).
    rewrite orb_false_r, prefix_app_iff. split.
    + intros [post H]. by exists "", post.
    + intros (pre & post & H). destruct pre; [by exists post|discriminate].
  - change (includes needle (String c hay))
      with (String.prefix needle (String c hay) || includes needle hay).
    rewrite orb_true_iff, prefix_app_iff, IH. split.
    + intros [[post H]|(pre & post & H)].
      * by exists "", post.
      * exists (String c pre), post. by rewrite H.
    + intros (pre & post & H). destruct pre as [|c' pre].
      * left. by exists post.
      * right. injection H as _ H. by exists pre, post.
Qed.

Section VideoCalls.

Variable friendly : string → string → string.

(** X19: when an image is displayed and no video is being generated,
    [handleGenerateVideo] asks whether a key is selected, opens the key
    dialog if none is, and calls [generateVideo] on the displayed image.
    It opens the key dialog once more exactly when the generation fails
    with a message that contains "Requested entity was not found"; a
    failure stores the error and leaves the video list as it was. *)
Theorem video_key_prompts
    (hasKey : bool) (outcome : Completion) (model : VideoModelType)
    (s : AppState) (shown : string) :
  displayImageUrl s = Some shown → truthy shown = true → isVideoLoading s = false →
  ∃ recovery,
    (handleGenerateVideo friendly hasKey outcome model s).2
    = callHasSelectedApiKey :: (if hasKey then [] else [callOpenSelectKey])
      ++ callGenerateVideo shown model :: recovery
    ∧ (recovery = [callOpenSelectKey] ∨ recovery = [])
    ∧ (recovery = [callOpenSelectKey] ↔
       ∃ pre post, outcome = Throw (pre +:+ "Requested entity was not found" +:+ post))
    ∧ (∀ err, outcome = Throw err →
         videoUrls (handleGenerateVideo friendly hasKey outcome model s).1 = videoUrls s
         ∧ error (handleGenerateVideo friendly hasKey outcome model s).1
           = Some (friendly err "ไม่สามารถสร้างวิดีโอได้"))
    ∧ isVideoLoading (handleGenerateVideo friendly hasKey outcome model s).1 = false
    ∧ isLoading (handleGenerateVideo friendly hasKey outcome model s).1 = isLoading s.
Proof.
  intros Hshown Htruthy Hidle. unfold handleGenerateVideo.
  rewrite Hshown, Htruthy, Hidle. simpl.
  destruct outcome as [videoUrl|errorMsg]; simpl.
  - exists []. split; [reflexivity|]. split; [by right|]. split.
    + split; [discriminate|]. intros (pre & post & H). discriminate.
    + split; [discriminate|done].
  - destruct (includes "Requested entity was not found" errorMsg) eqn:Hfound.
    + exists [callOpenSelectKey]. split; [reflexivity|]. split; [by left|]. split.
      * split; [|done]. intros _.
        apply includes_spec in Hfound as (pre & post & ->). by exists pre, post.
      * split; [|done]. by intros err [= <-].
    + exists []. split; [reflexivity|]. split; [by right|]. split.
      * split; [discriminate|]. intros (pre & post & [= ->]).
        assert (includes "Requested entity was not found"
                  (pre +:+ "Requested entity was not found" +:+ post) = true) as Hin
          by (apply includes_spec; by exists pre, post).
        congruence.
      * split; [|done]. by intros err [= <-].
Qed.

End VideoCalls.


(** ** Handlers that overlap *)

Section OverlapHalves.

Variable friendly : string → string → string.

(** A handler whose promise settles before anything else happens is
    the handler run in one step. *)
Lemma handleGarmentSelect_halves reply file info s :
  handleGarmentSelect friendly reply file info s
  = let '(started, calls, awaits) := garmentSelectCalled s file info s in
    (if awaits
     then garmentSelectSettled friendly s info (generateVirtualTryOnImage reply) started
     else started,
     calls).
Proof.
  unfold handleGarmentSelect, garmentSelectCalled.
  destruct (displayImageUrl s) as [shown|]; [|reflexivity].
  destruct (_ || _); [reflexivity|]. by destruct (sameGarment _ info).
Qed.

Lemma handlePoseSelect_halves reply newIndex s :
  handlePoseSelect friendly reply newIndex s
  = let '(started, calls, awaits) := poseSelectCalled newIndex s in
    (if awaits
     then poseSelectSettled friendly s newIndex (generatePoseVariation reply) started
     else started,
     calls).
Proof.
  unfold handlePoseSelect, poseSelectCalled.
  destruct (_ || _); [reflexivity|].
  destruct (outfitHistory s !! currentOutfitIndex s) as [currentLayer|]; [|reflexivity].
  destruct (truthyOpt _); [reflexivity|].
  destruct (head _) as [base|]; [|reflexivity].
  by destruct (negb (truthy base)).
Qed.

End OverlapHalves.

(** C1, on the code: the cursor leaves the history when two garment
    selections overlap.  The model photo is finalized and two items of
    the wardrobe are clicked before the file of the first has loaded.
    Both clicks pass the guards, which read [isLoading] of the render
    they were made on, and both requests are made for the model photo.
    Each continuation cuts the history at the cursor of its closure and
    adds one to the running cursor: the first answer gives two layers
    and cursor 1, the second replaces the first garment's layer and
    moves the cursor to 2, past the two layers of the history. *)
Theorem two_clicks_leave_cursor_past_history :
  ∃ x,
    perform sampleFriendly twoClicksOnOneRender atMount = Some x
    ∧ waiting x = []
    ∧ issued x = [callVirtualTryOn modelPhoto teeFile; callVirtualTryOn modelPhoto capFile]
    ∧ garment <$> outfitHistory (rendered x) = [None; Some cap]
    ∧ length (outfitHistory (rendered x)) = 2
    ∧ currentOutfitIndex (rendered x) = 2
    ∧ ¬ cursorInRange (rendered x)
    ∧ outfitHistory (rendered x) !! currentOutfitIndex (rendered x) = None
    ∧ displayImageUrl (rendered x) = Some modelPhoto.
Proof.
  eexists. split; [lazy; reflexivity|].
  split; [reflexivity|]. split; [reflexivity|]. split; [reflexivity|].
  split; [reflexivity|]. split; [reflexivity|].
  split; [|split; reflexivity].
  unfold cursorInRange. cbv. lia.
Qed.

(** C3, on the code: after the tee is tried on (cursor 1) and taken
    off again (cursor 0), one click on the tee takes the fast path and
    puts the cursor back to 1 without a request; but a double click,
    two clicks before the file of the first has loaded, takes the fast
    path twice, because both calls read the cursor and the next layer of
    the render they were made on, and each adds one to the running
    cursor.  No request is made and the history is as it was, but the
    cursor is 2, not its value before the undo, and the history has no
    layer there. *)
Theorem double_click_redo_overshoots :
  ∃ undone once twice,
    perform sampleFriendly teeWornAndUndone atMount = Some undone
    ∧ waiting undone = []
    ∧ garment <$> outfitHistory (rendered undone) = [None; Some tee]
    ∧ currentOutfitIndex (rendered undone) = 0
    ∧ perform sampleFriendly
        [ClickGarment tee; Settle 0 (fileLoaded (Some teeFile))] undone = Some once
    ∧ issued once = issued undone
    ∧ currentOutfitIndex (rendered once) = 1
    ∧ perform sampleFriendly doubleClickOnTee undone = Some twice
    ∧ waiting twice = []
    ∧ issued twice = issued undone
    ∧ outfitHistory (rendered twice) = outfitHistory (rendered undone)
    ∧ currentOutfitIndex (rendered twice) = 2
    ∧ outfitHistory (rendered twice) !! currentOutfitIndex (rendered twice) = None.
Proof.
  eexists _, _, _. split; [lazy; reflexivity|].
  split; [reflexivity|]. split; [reflexivity|]. split; [reflexivity|].
  split; [lazy; reflexivity|]. split; [reflexivity|]. split; [reflexivity|].
  split; [lazy; reflexivity|]. split; [reflexivity|]. split; [reflexivity|].
  split; [reflexivity|]. split; reflexivity.
Qed.

(** C8, on the code: the pose index is not 0 after
    [handleModelFinalized] when a pose request was pending at Start
    Over.  The tee is shown in its third pose (pose index 2), the
    fourth pose is asked for, and Start Over is pressed while the
    request is pending: [handleStartOver] sets the pose index to 0 and
    the start screen is shown.  The request then fails, and the catch
    block of [handlePoseSelect] puts back the pose index its closure
    had saved, 2.  [handleModelFinalized], called by the start screen
    with a model photo, sets the history to the single base layer and
    the cursor to 0 and leaves the pose index at 2. *)
Theorem initialize_after_stale_rollback :
  ∃ closure reset stale x,
    perform sampleFriendly startOverWhilePosePending atMount = Some reset
    ∧ waiting reset = [changingPose closure 3]
    ∧ currentPoseIndex closure = 2
    ∧ modelImageUrl (rendered reset) = None
    ∧ currentPoseIndex (rendered reset) = 0
    ∧ act sampleFriendly (Settle 0 (serviceReplied (Rejected "offline"))) reset = Some stale
    ∧ waiting stale = []
    ∧ modelImageUrl (rendered stale) = None
    ∧ currentPoseIndex (rendered stale) = 2
    ∧ act sampleFriendly (FinalizeModel modelPhoto) stale = Some x
    ∧ outfitHistory (rendered x)
      = [ {| garment := None; poseImages := [(poseInstructionAt 0, modelPhoto)] |} ]
    ∧ currentOutfitIndex (rendered x) = 0
    ∧ currentPoseIndex (rendered x) = 2
    ∧ displayImageUrl (rendered x) = Some modelPhoto.
Proof.
  eexists _, _, _, _. split; [lazy; reflexivity|].
  split; [reflexivity|]. split; [reflexivity|]. split; [reflexivity|].
  split; [reflexivity|]. split; [lazy; reflexivity|]. split; [reflexivity|].
  split; [reflexivity|]. split; [reflexivity|]. split; [lazy; reflexivity|].
  split; [reflexivity|]. split; [reflexivity|]. split; reflexivity.
Qed.

(** ** What holds however the handlers overlap *)

Lemma existsb_delete_other {A : Type} (f : A → bool) (k : nat) (l : list A) (a : A) :
  l !! k = Some a → f a = false → existsb f (delete k l) = existsb f l.
Proof.
  revert k. induction l as [|b l IH]; intros [|k]; simpl; try discriminate.
  - by intros [= ->] ->.
  - intros Hk Ha. by rewrite (IH k Hk Ha).
Qed.

Section OverlapInvariants.

Variable friendly : string → string → string.

Lemma perform_None actions : foldl (fun acc a => acc ≫= act friendly a) None actions = None.
Proof. by induction actions. Qed.

(** An invariant of single actions is an invariant of sessions. *)
Lemma perform_invariant (P : Session → Prop) :
  (∀ a x x', P x → act friendly a x = Some x' → P x') →
  ∀ actions x x', P x → perform friendly actions x = Some x' → P x'.
Proof.
  intros Hact. unfold perform.
  induction actions as [|a actions IH]; intros x x' Hx; simpl.
  - by intros [= <-].
  - destruct (act friendly a x) as [x1|] eqn:Ha; simpl.
    + apply IH. by eapply Hact.
    + by rewrite perform_None.
Qed.

Lemma garmentSelectCalled_busy closure file info running started calls awaits :
  garmentSelectCalled closure file info running = (started, calls, awaits) →
  wardrobe started = wardrobe running
  ∧ if awaits then True
    else isLoading started = isLoading running
         ∧ loadingMessage started = loadingMessage running.
Proof.
  unfold garmentSelectCalled.
  destruct (displayImageUrl closure) as [shown|]; [|by intros [= <- <- <-]].
  destruct (_ || _); [by intros [= <- <- <-]|].
  destruct (sameGarment _ info); by intros [= <- <- <-].
Qed.

Lemma poseSelectCalled_busy newIndex s started calls awaits :
  poseSelectCalled newIndex s = (started, calls, awaits) →
  wardrobe started = wardrobe s
  ∧ if awaits then True
    else isLoading started = isLoading s ∧ loadingMessage started = loadingMessage s.
Proof.
  unfold poseSelectCalled.
  destruct (_ || _); [by intros [= <- <- <-]|].
  destruct (outfitHistory s !! currentOutfitIndex s) as [currentLayer|];
    [|by intros [= <- <- <-]].
  destruct (truthyOpt _); [by intros [= <- <- <-]|].
  destruct (head _) as [base|]; [|by intros [= <- <- <-]].
  destruct (negb (truthy base)); by intros [= <- <- <-].
Qed.

Lemma act_busy a x x' :
  (existsb requestPending (waiting x) = false →
   isLoading (rendered x) = false ∧ loadingMessage (rendered x) = "") →
  act friendly a x = Some x' →
  existsb requestPending (waiting x') = false →
  isLoading (rendered x') = false ∧ loadingMessage (rendered x') = "".
Proof.
  intros Hx. unfold act.
  destruct a as [url|item|file now objectUrl| |newIndex| |k answer]; cbv zeta.
  - destruct (_ && _); [|discriminate]. intros [= <-]. exact Hx.
  - destruct (negb _); [discriminate|].
    destruct (_ || _); intros [= <-]; [exact Hx|]. simpl.
    rewrite existsb_app. simpl. rewrite orb_false_r. exact Hx.
  - destruct (negb _); [discriminate|].
    destruct (_ || _); [intros [= <-]; exact Hx|].
    destruct (negb _); [intros [= <-]; exact Hx|].
    destruct (garmentSelectCalled _ file _ (rendered x))
      as [[started calls] awaits] eqn:Hcalled.
    apply garmentSelectCalled_busy in Hcalled as [_ Hbusy].
    intros [= <-]. simpl. rewrite existsb_app.
    destruct awaits; simpl; [by rewrite orb_true_r|].
    rewrite orb_false_r. destruct Hbusy as [-> ->]. exact Hx.
  - destruct (negb _); [discriminate|]. intros [= <-]. simpl.
    unfold handleRemoveLastGarment. by destruct (0 <? _).
  - destruct (negb _); [discriminate|].
    destruct (_ || _); [intros [= <-]; exact Hx|].
    destruct (poseSelectCalled newIndex (rendered x)) as [[started calls] awaits] eqn:Hcalled.
    apply poseSelectCalled_busy in Hcalled as [_ Hbusy].
    intros [= <-]. simpl. rewrite existsb_app.
    destruct awaits; simpl; [by rewrite orb_true_r|].
    rewrite orb_false_r. destruct Hbusy as [-> ->]. exact Hx.
  - destruct (negb _); [discriminate|]. by intros [= <-].
  - destruct (waiting x !! k) as [[closure item|closure info|closure newIndex]|] eqn:Hk;
      [| | |discriminate].
    + destruct answer as [[file|]|reply]; [| |discriminate].
      * destruct (garmentSelectCalled closure file item (rendered x))
          as [[started calls] awaits] eqn:Hcalled.
        apply garmentSelectCalled_busy in Hcalled as [_ Hbusy].
        intros [= <-]. simpl. rewrite existsb_app.
        destruct awaits; simpl; [by rewrite orb_true_r|].
        rewrite orb_false_r, (existsb_delete_other _ _ _ _ Hk eq_refl).
        destruct Hbusy as [-> ->]. exact Hx.
      * intros [= <-]. simpl.
        rewrite (existsb_delete_other _ _ _ _ Hk eq_refl). exact Hx.
    + destruct answer as [loaded|reply]; [discriminate|]. intros [= <-] _. simpl.
      unfold garmentSelectSettled. by destruct (generateVirtualTryOnImage reply).
    + destruct answer as [loaded|reply]; [discriminate|].
      destruct (match generatePoseVariation reply with
                | Return _ => _ | Throw _ => true end); [|discriminate].
      intros [= <-] _. simpl.
      unfold poseSelectSettled. by destruct (generatePoseVariation reply).
Qed.

(** X21: however wardrobe clicks, uploads, undos, pose selections and
    Start Over overlap with pending file loads and requests, and in
    whatever order the promises settle, [isLoading] is not left up: in
    every session from the state at mount (up to a pose image that
    arrives for an index past the end of the history, where sessions
    stop), once no try-on request and no pose request is pending,
    [isLoading] is false. *)
Theorem no_session_stays_busy (actions : list Action) (x : Session) :
  perform friendly actions atMount = Some x →
  existsb requestPending (waiting x) = false →
  isLoading (rendered x) = false.
Proof.
  intros Hx Hidle.
  refine (proj1 (perform_invariant
                   (fun x => existsb requestPending (waiting x) = false →
                             isLoading (rendered x) = false
                             ∧ loadingMessage (rendered x) = "")
                   _ actions atMount x _ Hx Hidle)).
  - intros a y y'. apply act_busy.
  - done.
Qed.

Lemma garmentSelectSettled_wardrobe closure info outcome running :
  NoDup (id <$> wardrobe running) ∧ defaultWardrobe `prefix_of` wardrobe running →
  NoDup (id <$> wardrobe (garmentSelectSettled friendly closure info outcome running))
  ∧ defaultWardrobe
      `prefix_of` wardrobe (garmentSelectSettled friendly closure info outcome running).
Proof.
  intros [Hnodup Hprefix]. unfold garmentSelectSettled.
  destruct outcome as [image|err]; simpl; [|done].
  destruct (inWardrobe (wardrobe running) info) eqn:Hin; [done|]. split.
  - rewrite fmap_app. apply NoDup_app. split; [exact Hnodup|]. split.
    + intros i Hi [->|Hnil]%elem_of_cons; [|inversion Hnil].
      apply inWardrobe_spec in Hi. congruence.
    + apply NoDup_singleton.
  - by apply prefix_app_r.
Qed.

Lemma act_wardrobe a x x' :
  NoDup (id <$> wardrobe (rendered x))
  ∧ defaultWardrobe `prefix_of` wardrobe (rendered x) →
  act friendly a x = Some x' →
  NoDup (id <$> wardrobe (rendered x'))
  ∧ defaultWardrobe `prefix_of` wardrobe (rendered x').
Proof.
  intros Hx. unfold act.
  destruct a as [url|item|file now objectUrl| |newIndex| |k answer]; cbv zeta.
  - destruct (_ && _); [|discriminate]. by intros [= <-].
  - destruct (negb _); [discriminate|]. by destruct (_ || _); intros [= <-].
  - destruct (negb _); [discriminate|].
    destruct (_ || _); [by intros [= <-]|].
    destruct (negb _); [by intros [= <-]|].
    destruct (garmentSelectCalled _ file _ (rendered x))
      as [[started calls] awaits] eqn:Hcalled.
    apply garmentSelectCalled_busy in Hcalled as [Hw _].
    intros [= <-]. simpl. by rewrite Hw.
  - destruct (negb _); [discriminate|]. intros [= <-]. simpl.
    unfold handleRemoveLastGarment. by destruct (0 <? _).
  - destruct (negb _); [discriminate|].
    destruct (_ || _); [by intros [= <-]|].
    destruct (poseSelectCalled newIndex (rendered x)) as [[started calls] awaits] eqn:Hcalled.
    apply poseSelectCalled_busy in Hcalled as [Hw _].
    intros [= <-]. simpl. by rewrite Hw.
  - destruct (negb _); [discriminate|]. intros [= <-]. simpl. split; [|done].
    apply NoDup_ListNoDup. repeat constructor; simpl; intuition discriminate.
  - destruct (waiting x !! k) as [[closure item|closure info|closure newIndex]|];
      [| | |discriminate].
    + destruct answer as [[file|]|reply]; [| |discriminate].
      * destruct (garmentSelectCalled closure file item (rendered x))
          as [[started calls] awaits] eqn:Hcalled.
        apply garmentSelectCalled_busy in Hcalled as [Hw _].
        intros [= <-]. simpl. by rewrite Hw.
      * by intros [= <-].
    + destruct answer as [loaded|reply]; [discriminate|]. intros [= <-]. simpl.
      by apply garmentSelectSettled_wardrobe.
    + destruct answer as [loaded|reply]; [discriminate|].
      destruct (match generatePoseVariation reply with
                | Return _ => _ | Throw _ => true end); [|discriminate].
      intros [= <-]. simpl.
      unfold poseSelectSettled. by destruct (generatePoseVariation reply).
Qed.

(** X22: however wardrobe clicks, uploads, undos, pose selections and
    Start Over overlap with pending file loads and requests, no two
    items of the wardrobe have the same id and the wardrobe starts with
    the items of the default wardrobe, in their order: this holds in
    every session from the state at mount (up to a pose image that
    arrives for an index past the end of the history, where sessions
    stop), whatever is still pending. *)
Theorem wardrobe_ids_unique_in_sessions (actions : list Action) (x : Session) :
  perform friendly actions atMount = Some x →
  NoDup (id <$> wardrobe (rendered x))
  ∧ defaultWardrobe `prefix_of` wardrobe (rendered x).
Proof.
  apply (perform_invariant
           (fun x => NoDup (id <$> wardrobe (rendered x))
                     ∧ defaultWardrobe `prefix_of` wardrobe (rendered x))).
  - apply act_wardrobe.
  - split; [|done].
    apply NoDup_ListNoDup. repeat constructor; simpl; intuition discriminate.
Qed.

End OverlapInvariants.

(** ** Worked examples of the properties above *)

Lemma failed_generation_changes_nothing_shown_witness :
  imageOperation (Rejected "offline") = Throw "offline"
  ∧ (poseInstructionAt 3 ∉ availablePoseKeys wearingTee)
  ∧ displayImageUrl
      (handleGarmentSelect sampleFriendly (Rejected "offline") capFile cap wearingTee).1
    = displayImageUrl wearingTee
  ∧ error
      (handleGarmentSelect sampleFriendly (Rejected "offline") capFile cap wearingTee).1
    = Some (sampleFriendly "offline" "ไม่สามารถใช้ไอเทมนี้ได้")
  ∧ displayImageUrl (handlePoseSelect sampleFriendly (Rejected "offline") 3 wearingTee).1
    = displayImageUrl wearingTee
  ∧ currentPoseIndex (handlePoseSelect sampleFriendly (Rejected "offline") 3 wearingTee).1
    = currentPoseIndex wearingTee.
Proof.
  assert (poseInstructionAt 3 ∉ availablePoseKeys wearingTee) as Habsent.
  { exact (proj1 (objectGet_None_keys (poseImages teeLayer) (poseInstructionAt 3))
                 eq_refl). }
  destruct (failed_generation_changes_nothing_shown sampleFriendly
              (Rejected "offline") capFile cap 3 wearingTee "offline"
              eq_refl eq_refl Habsent)
    as ((_ & _ & _ & _ & _ & Hshown & Herror) & (_ & _ & Hpose & _ & _ & Hshown' & _)).
  assert ((handleGarmentSelect sampleFriendly (Rejected "offline") capFile cap
             wearingTee).2 ≠ []) as Hcalled by discriminate.
  exact (conj eq_refl (conj Habsent (conj Hshown (conj (Herror Hcalled)
           (conj Hshown' Hpose))))).
Defined.




Lemma saved_outfit_holds_worn_garments_witness :
  displayImageUrl wearingTeeAndCap = Some "data:image/png;base64,I3"
  ∧ cursorInRange wearingTeeAndCap
  ∧ baseFirst wearingTeeAndCap
  ∧ garmentsAfterBase wearingTeeAndCap
  ∧ ∃ saved,
      handleSaveOutfit 12 34 wearingTeeAndCap
      = (wearingTeeAndCap |> setSavedOutfits (fun prev => saved :: prev))
      ∧ SavedOutfit.id saved = "saved-" +:+ pretty 12
      ∧ SavedOutfit.timestamp saved = 34
      ∧ SavedOutfit.imageUrl saved = "data:image/png;base64,I3"
      ∧ length (SavedOutfit.items saved) = currentOutfitIndex wearingTeeAndCap
      ∧ Some <$> SavedOutfit.items saved
        = garment <$> drop 1 (activeOutfitLayers wearingTeeAndCap).
Proof.
  assert (cursorInRange wearingTeeAndCap) as Hcursor by (cbv; lia).
  assert (baseFirst wearingTeeAndCap) as Hbase by reflexivity.
  assert (garmentsAfterBase wearingTeeAndCap) as Hafter.
  { intros [|[|[|i]]] layer Hlayer Hpos; [lia| | |discriminate];
      injection Hlayer as <-; by eexists. }
  split; [reflexivity|]. split; [exact Hcursor|]. split; [exact Hbase|].
  split; [exact Hafter|].
  apply (saved_outfit_holds_worn_garments wearingTeeAndCap "data:image/png;base64,I3"
           12 34);
    [reflexivity|reflexivity|exact Hcursor|exact Hbase|exact Hafter].
Defined.

Lemma delete_after_save_witness :
  displayImageUrl wearingTee = Some "data:image/png;base64,I1"
  ∧ handleDeleteSavedOutfit ("saved-" +:+ pretty 7) (handleSaveOutfit 7 70 wearingTee)
    = wearingTee
  ∧ savedOutfits
      (handleDeleteSavedOutfit ("saved-" +:+ pretty 7)
         (handleSaveOutfit 7 71 (handleSaveOutfit 7 70 wearingTee)))
    = savedOutfits (handleDeleteSavedOutfit ("saved-" +:+ pretty 7) wearingTee)
  ∧ savedOutfits
      (handleDeleteSavedOutfit ("saved-" +:+ pretty 7)
         (handleSaveOutfit 8 71 (handleSaveOutfit 7 70 wearingTee)))
    = savedOutfits
        (handleSaveOutfit 8 71
           (handleDeleteSavedOutfit ("saved-" +:+ pretty 7) wearingTee)).
Proof.
  destruct (delete_after_save wearingTee 7 8 70 71 "data:image/png;base64,I1"
              eq_refl eq_refl)
    as (Hrestored & Htwice & Hother).
  assert (7 ≠ 8) as Hclock by discriminate.
  exact (conj eq_refl
           (conj (Hrestored (Forall_nil_2 _)) (conj Htwice (Hother Hclock)))).
Defined.


Lemma arrows_walk_cached_poses_witness :
  indexOf (POSE_INSTRUCTIONS !! currentPoseIndex teeFirstPoseAgain)
          (availablePoseKeys teeFirstPoseAgain) = Some 0
  ∧ 0 + 1 < length (availablePoseKeys teeFirstPoseAgain)
  ∧ (arrowClick sampleFriendly handlePreviousPose (pngReply "I8") teeFirstPoseAgain).2 = []
  ∧ outfitHistory
      (arrowClick sampleFriendly handlePreviousPose (pngReply "I8") teeFirstPoseAgain).1
    = outfitHistory teeFirstPoseAgain
  ∧ (arrowClick sampleFriendly handleNextPose (pngReply "I8") teeFirstPoseAgain).2 = []
  ∧ outfitHistory
      (arrowClick sampleFriendly handleNextPose (pngReply "I8") teeFirstPoseAgain).1
    = outfitHistory teeFirstPoseAgain.
Proof.
  assert (Forall offered
            [GarmentSelect (pngReply "I1") teeFile tee; PoseSelect (pngReply "I2") 2;
             PoseSelect (pngReply "I9") 0]) as Hes.
  { repeat (apply Forall_cons; split; [exact I|]). apply Forall_nil_2. }
  assert (0 + 1 < length (availablePoseKeys teeFirstPoseAgain)) as Hnext
    by (cbv; lia).
  assert (indexOf (POSE_INSTRUCTIONS !! currentPoseIndex teeFirstPoseAgain)
                  (availablePoseKeys teeFirstPoseAgain) = Some 0) as Hcurrent
    by reflexivity.
  assert (teeFirstPoseAgain
          = run sampleFriendly
              [GarmentSelect (pngReply "I1") teeFile tee; PoseSelect (pngReply "I2") 2;
               PoseSelect (pngReply "I9") 0]
              (handleModelFinalized modelPhoto initialState)) as Hsession
    by reflexivity.
  destruct (arrows_walk_cached_poses sampleFriendly modelPhoto initialState
              [GarmentSelect (pngReply "I1") teeFile tee; PoseSelect (pngReply "I2") 2;
               PoseSelect (pngReply "I9") 0]
              teeFirstPoseAgain (pngReply "I8") 0 eq_refl Hes Hsession Hcurrent)
    as ((Hleft & Hleft') & Hright).
  destruct (Hright Hnext) as (Hright1 & Hright2).
  exact (conj Hcurrent (conj Hnext (conj Hleft (conj Hleft' (conj Hright1 Hright2))))).
Defined.

Lemma layers_hold_known_poses_witness :
  outfitHistory
    (appRun sampleFriendly
       [Engine (ModelFinalized modelPhoto);
        Engine (GarmentSelect (pngReply "I1") teeFile tee);
        Engine (PoseSelect (pngReply "I2") 2)]
       initialState) !! 1
  = Some teeLayerTwoPoses
  ∧ currentPoseIndex
      (appRun sampleFriendly
         [Engine (ModelFinalized modelPhoto);
          Engine (GarmentSelect (pngReply "I1") teeFile tee);
          Engine (PoseSelect (pngReply "I2") 2)]
         initialState)
    < length POSE_INSTRUCTIONS
  ∧ NoDup (objectKeys (poseImages teeLayerTwoPoses))
  ∧ (∀ pose, pose ∈ objectKeys (poseImages teeLayerTwoPoses) → pose ∈ POSE_INSTRUCTIONS)
  ∧ length (poseImages teeLayerTwoPoses) ≤ 6.
Proof.
  split; [reflexivity|].
  apply (layers_hold_known_poses sampleFriendly
           [Engine (ModelFinalized modelPhoto);
            Engine (GarmentSelect (pngReply "I1") teeFile tee);
            Engine (PoseSelect (pngReply "I2") 2)]
           1 teeLayerTwoPoses).
  - apply Forall_cons. split; [exact I|].
    apply Forall_cons. split; [exact I|].
    apply Forall_cons. split; [|apply Forall_nil_2].
    cbv. lia.
  - reflexivity.
Defined.

Lemma start_screen_hands_over_a_model_witness :
  StartScreen.finalizeOffered
    (StartScreen.run sampleFriendly
       [StartScreen.FileSelect (Some "data:image/jpeg;base64,P0") portrait;
        StartScreen.GenerateModel (pngReply "M0")]
       StartScreen.initial)
  = Some modelPhoto
  ∧ (∃ blob, modelPhoto = dataUrl blob)
  ∧ truthy modelPhoto = true
  ∧ displayImageUrl (handleModelFinalized modelPhoto initialState) = Some modelPhoto
  ∧ cursorInRange (handleModelFinalized modelPhoto initialState)
  ∧ imagesPresent (handleModelFinalized modelPhoto initialState).
Proof.
  split; [reflexivity|].
  apply (start_screen_hands_over_a_model sampleFriendly
           [StartScreen.FileSelect (Some "data:image/jpeg;base64,P0") portrait;
            StartScreen.GenerateModel (pngReply "M0")]
           modelPhoto initialState).
  reflexivity.
Defined.

Lemma video_key_prompts_witness :
  displayImageUrl wearingTee = Some "data:image/png;base64,I1"
  ∧ ∃ recovery,
      (handleGenerateVideo sampleFriendly false
         (Throw "Requested entity was not found.") veo_fast wearingTee).2
      = callHasSelectedApiKey :: (if false then [] else [callOpenSelectKey])
        ++ callGenerateVideo "data:image/png;base64,I1" veo_fast :: recovery
      ∧ (recovery = [callOpenSelectKey] ∨ recovery = [])
      ∧ (recovery = [callOpenSelectKey] ↔
         ∃ pre post,
           Throw "Requested entity was not found."
           = Throw (pre +:+ "Requested entity was not found" +:+ post))
      ∧ (∀ err, Throw "Requested entity was not found." = Throw err →
           videoUrls
             (handleGenerateVideo sampleFriendly false
                (Throw "Requested entity was not found.") veo_fast wearingTee).1
           = videoUrls wearingTee
           ∧ error
               (handleGenerateVideo sampleFriendly false
                  (Throw "Requested entity was not found.") veo_fast wearingTee).1
             = Some (sampleFriendly err "ไม่สามารถสร้างวิดีโอได้"))
      ∧ isVideoLoading
          (handleGenerateVideo sampleFriendly false
             (Throw "Requested entity was not found.") veo_fast wearingTee).1 = false
      ∧ isLoading
          (handleGenerateVideo sampleFriendly false
             (Throw "Requested entity was not found.") veo_fast wearingTee).1
        = isLoading wearingTee.
Proof.
  split; [reflexivity|].
  apply (video_key_prompts sampleFriendly false
           (Throw "Requested entity was not found.") veo_fast wearingTee
           "data:image/png;base64,I1");
    reflexivity.
Defined.


Lemma no_session_stays_busy_witness :
  ∃ x,
    perform sampleFriendly twoClicksOnOneRender atMount = Some x
    ∧ existsb requestPending (waiting x) = false
    ∧ isLoading (rendered x) = false.
Proof.
  eexists. split; [lazy; reflexivity|]. split; [reflexivity|].
  apply (no_session_stays_busy sampleFriendly twoClicksOnOneRender);
    [lazy; reflexivity|reflexivity].
Defined.

Lemma wardrobe_ids_unique_in_sessions_witness :
  ∃ x,
    perform sampleFriendly shirtUploadedTwice atMount = Some x
    ∧ length (outfitHistory (rendered x)) = 3
    ∧ drop 5 (id <$> wardrobe (rendered x)) = ["custom-17"]
    ∧ NoDup (id <$> wardrobe (rendered x))
    ∧ defaultWardrobe `prefix_of` wardrobe (rendered x).
Proof.
  eexists. split; [lazy; reflexivity|]. split; [reflexivity|]. split; [reflexivity|].
  apply (wardrobe_ids_unique_in_sessions sampleFriendly shirtUploadedTwice).
  lazy. reflexivity.
Defined.
